(** * generate_icons.py: placeholder app icons for the Location Tracker

    A shallow embedding of the script [generate_icons.py] and of the part of
    its environment that it drives: the colour parser, the raster type and
    the drawing primitives of the imaging library, [os.path.join], a file
    store and the standard output.

    Python integers are unbounded, so they are [Z]; [//] is floor division,
    which is [Z.div].  An exception is a value of [exn]; code that can raise
    returns in [result], code that also touches the outside world runs in
    [Py], a state monad over [World] whose state survives an exception. *)

From Stdlib Require Import ZArith String Ascii List Lia.
From stdpp Require Import base option list strings pretty gmap.

Local Open Scope Z_scope.

(** ** Exceptions *)

Inductive exn : Type :=
  | ValueError (msg : string)
  | SystemError (msg : string)
  | FileNotFoundError (path : string)
  | NotADirectoryError (path : string)
  | IsADirectoryError (path : string)
  | PermissionError (path : string).

(** The subclasses of [OSError]: what a failed write to the file store
    raises. *)
Definition is_OSError (e : exn) : bool :=
  match e with
  | FileNotFoundError _ | NotADirectoryError _
  | IsADirectoryError _ | PermissionError _ => true
  | ValueError _ | SystemError _ => false
  end.

Definition result (A : Type) : Type := exn + A.

Definition raise {A : Type} (e : exn) : result A := inl e.

#[global] Instance result_ret : MRet result := fun A x => inr x.
#[global] Instance result_bind : MBind result := fun A B f m =>
  match m with
  | inl e => inl e
  | inr x => f x
  end.

(** ** The outside world: file store and standard output *)

(** A path names a directory or a regular file; [writable] is the permission
    of the running user, [data] the bytes of the file. *)
Inductive node : Type :=
  | Dir (writable : bool)
  | File (writable : bool) (data : list Byte.byte).

(** [fs] maps a path, as the script spells it, to what is there; [stdout]
    holds the text of each [print], oldest first. *)
Record World : Type := {
  fs : gmap string node;
  stdout : list string
}.

Definition Py (A : Type) : Type := World -> result A * World.

#[global] Instance Py_ret : MRet Py := fun A x w => (inr x, w).
#[global] Instance Py_bind : MBind Py := fun A B f m w =>
  match m w with
  | (inl e, w') => (inl e, w')
  | (inr x, w') => f x w'
  end.

(** A computation that touches nothing outside. *)
Definition pure {A : Type} (r : result A) : Py A := fun w => (r, w).

Definition print (s : string) : Py unit := fun w =>
  (inr tt, {| fs := fs w; stdout := stdout w ++ [s] |}).

(** [for x in xs: body(x)]: the first exception leaves the loop. *)
Fixpoint for_each {A : Type} (xs : list A) (body : A -> Py unit) : Py unit :=
  match xs with
  | [] => mret tt
  | x :: xs' => body x;; for_each xs' body
  end.

(** ** Paths ([os.path], POSIX flavour) *)

Module os_path.

Definition sep : ascii := "/"%char.

Definition startswith_sep (s : string) : bool :=
  match s with
  | String c _ => Ascii.eqb c sep
  | EmptyString => false
  end.

Fixpoint endswith_sep (s : string) : bool :=
  match s with
  | EmptyString => false
  | String c EmptyString => Ascii.eqb c sep
  | String _ s' => endswith_sep s'
  end.

(** [os.path.join(a, b)] *)
Definition join (a b : string) : string :=
  if startswith_sep b then b
  else if String.eqb a "" || endswith_sep a then a +:+ b
  else a +:+ String sep b.

Fixpoint has_sep (s : string) : bool :=
  match s with
  | EmptyString => false
  | String c s' => Ascii.eqb c sep || has_sep s'
  end.

(** [p[:p.rfind('/') + 1]] *)
Fixpoint upto_last_sep (p : string) : string :=
  match p with
  | EmptyString => EmptyString
  | String c p' =>
    if has_sep p' then String c (upto_last_sep p')
    else if Ascii.eqb c sep then String c EmptyString
    else EmptyString
  end.

(** [s.rstrip('/')] *)
Fixpoint rstrip_sep (s : string) : string :=
  match s with
  | EmptyString => EmptyString
  | String c s' =>
    let r := rstrip_sep s' in
    if Ascii.eqb c sep && String.eqb r "" then EmptyString else String c r
  end.

(** [os.path.dirname(p)] *)
Definition dirname (p : string) : string :=
  let head := upto_last_sep p in
  let stripped := rstrip_sep head in
  if String.eqb stripped "" then head else stripped.

End os_path.

(** [open(path, "w+b")] on the file store: [inr true] when the call creates
    the file, [inr false] when it truncates one that is there. *)
Definition open_wb (nodes : gmap string node) (path : string) : result bool :=
  match nodes !! path with
  | Some (Dir _) => raise (IsADirectoryError path)
  | Some (File true _) => mret false
  | Some (File false _) => raise (PermissionError path)
  | None =>
    match nodes !! os_path.dirname path with
    | None => raise (FileNotFoundError path)
    | Some (File _ _) => raise (NotADirectoryError path)
    | Some (Dir true) => mret true
    | Some (Dir false) => raise (PermissionError path)
    end
  end.

(** ** Colour specifiers ([ImageColor]) *)

Module ImageColor.

Definition hex_digit (c : ascii) : option Z :=
  let n := Z.of_N (N_of_ascii c) in
  if (48 <=? n) && (n <=? 57) then Some (n - 48)
  else if (97 <=? n) && (n <=? 102) then Some (n - 87)
  else None.

Definition lower_ascii (c : ascii) : ascii :=
  let n := N_of_ascii c in
  if ((65 <=? n) && (n <=? 90))%N then ascii_of_N (n + 32) else c.

Fixpoint lower (s : string) : string :=
  match s with
  | EmptyString => EmptyString
  | String c s' => String (lower_ascii c) (lower s')
  end.

(** The named colours the script can reach, out of the library's table. *)
Definition colormap (name : string) : option (Z * Z * Z) :=
  if String.eqb name "white" then Some (255, 255, 255)
  else if String.eqb name "black" then Some (0, 0, 0)
  else if String.eqb name "red" then Some (255, 0, 0)
  else if String.eqb name "blue" then Some (0, 0, 255)
  else None.

(** [getrgb]: a colour name, [#rgb] or [#rrggbb], case-insensitive; any
    other specifier is rejected. *)
Definition getrgb (color : string) : result (Z * Z * Z) :=
  let color := lower color in
  match colormap color with
  | Some rgb => mret rgb
  | None =>
    match color with
    | String "#" (String r (String g (String b EmptyString))) =>
      match hex_digit r, hex_digit g, hex_digit b with
      | Some r, Some g, Some b => mret (17 * r, 17 * g, 17 * b)
      | _, _, _ => raise (ValueError "unknown color specifier")
      end
    | String "#" (String r1 (String r0 (String g1 (String g0
        (String b1 (String b0 EmptyString)))))) =>
      match hex_digit r1, hex_digit r0, hex_digit g1, hex_digit g0,
            hex_digit b1, hex_digit b0 with
      | Some r1, Some r0, Some g1, Some g0, Some b1, Some b0 =>
        mret (16 * r1 + r0, 16 * g1 + g0, 16 * b1 + b0)
      | _, _, _, _, _, _ => raise (ValueError "unknown color specifier")
      end
    | _ => raise (ValueError "unknown color specifier")
    end
  end.

End ImageColor.

(** ** Rasters ([Image]) *)

Inductive mode : Type := L | RGB | RGBA.

(** Number of colour channels of a pixel. *)
Definition bands (m : mode) : nat :=
  match m with L => 1%nat | RGB => 3%nat | RGBA => 4%nat end.

Definition pixel : Type := list Z.

(** A raster: [im_data] holds [im_height] rows of [im_width] pixels, row 0
    on top. *)
Record image : Type := {
  im_mode : mode;
  im_width : Z;
  im_height : Z;
  im_data : list (list pixel)
}.

Definition BBox : Type := Z * Z * Z * Z.
Definition Point : Type := Z * Z.

(** [getcolor]: the ink of a colour specifier in a mode. *)
Definition getcolor (color : string) (m : mode) : result pixel :=
  '(r, g, b) ← ImageColor.getrgb color;
  mret match m with
       | L => [Z.shiftr (r * 19595 + g * 38470 + b * 7471 + 32768) 16]
       | RGB => [r; g; b]
       | RGBA => [r; g; b; 255]
       end.

(** What the script does not decide: which pixels a filled ellipse or
    polygon covers, and the bytes of an encoded raster.  They belong to the
    rasteriser and to the PNG encoder; everything below holds for any
    choice. *)
Class Backend : Type := {
  ellipse_covers : BBox -> Z -> Z -> bool;
  polygon_covers : list Point -> Z -> Z -> bool;
  png_encode : image -> list Byte.byte;
  (** the chunks written before the pixel data *)
  png_preamble : image -> list Byte.byte
}.

Module Image.

(** [Image.new(mode, size, color)] *)
Definition new (m : mode) (size : Z * Z) (color : string) : result image :=
  let '(w, h) := size in
  if (w <? 0) || (h <? 0) then
    raise (ValueError "Width and height must be >= 0")
  else
    ink ← getcolor color m;
    mret {| im_mode := m; im_width := w; im_height := h;
            im_data := replicate (Z.to_nat h) (replicate (Z.to_nat w) ink) |}.

Definition is_empty (im : image) : bool :=
  (im_width im <=? 0) || (im_height im <=? 0).

(** Give [ink] to the pixels of [im] that [covers] selects; the raster
    keeps its mode and its dimensions. *)
Definition paint (covers : Z -> Z -> bool) (ink : pixel) (im : image) : image :=
  {| im_mode := im_mode im; im_width := im_width im;
     im_height := im_height im;
     im_data :=
       imap (fun y row =>
               imap (fun x p =>
                       if covers (Z.of_nat x) (Z.of_nat y) then ink else p)
                    row)
            (im_data im) |}.

Definition getpixel (im : image) (x y : Z) : option pixel :=
  if (x <? 0) || (y <? 0) then None
  else row ← im_data im !! Z.to_nat y; row !! Z.to_nat x.

Section save.
Context {B : Backend}.

(** [img.save(fp, 'PNG')]: the file is opened first; the encoder refuses an
    empty raster, and then a file the call created is removed again while
    one that was there keeps what was written before the pixel data. *)
Definition save (im : image) (fp : string) : Py unit := fun w =>
  match open_wb (fs w) fp with
  | inl e => (inl e, w)
  | inr created =>
    if is_empty im then
      (inl (SystemError "tile cannot extend outside image"),
       {| fs := if created then fs w
                else <[fp := File true (png_preamble im)]> (fs w);
          stdout := stdout w |})
    else
      (inr tt,
       {| fs := <[fp := File true (png_encode im)]> (fs w);
          stdout := stdout w |})
  end.

End save.

End Image.

(** ** Drawing ([ImageDraw]) *)

Inductive shape : Type :=
  | Ellipse (xy : BBox)
  | Polygon (xy : list Point).

(** [ImageDraw.Draw(img)] draws into [img] itself: the script saves [img]
    after drawing through the handle.  The model threads that one raster as
    [canvas]; [journal] is a ghost field, read by no operation, listing the
    primitives issued so far with their fill, oldest first. *)
Record drawing : Type := {
  canvas : image;
  journal : list (shape * string)
}.

Module ImageDraw.

Definition Draw (im : image) : drawing := {| canvas := im; journal := [] |}.

Section primitives.
Context {B : Backend}.

(** [draw.ellipse(xy, fill=...)]: the fill is resolved first, then the
    box must be ordered. *)
Definition ellipse (xy : BBox) (fill : string) (d : drawing) : result drawing :=
  let '(x0, y0, x1, y1) := xy in
  ink ← getcolor fill (im_mode (canvas d));
  if x1 <? x0 then
    raise (ValueError "x1 must be greater than or equal to x0")
  else if y1 <? y0 then
    raise (ValueError "y1 must be greater than or equal to y0")
  else
    mret {| canvas := Image.paint (ellipse_covers xy) ink (canvas d);
            journal := journal d ++ [(Ellipse xy, fill)] |}.

(** [draw.polygon(xy, fill=...)] *)
Definition polygon (xy : list Point) (fill : string) (d : drawing) : result drawing :=
  ink ← getcolor fill (im_mode (canvas d));
  mret {| canvas := Image.paint (polygon_covers xy) ink (canvas d);
          journal := journal d ++ [(Polygon xy, fill)] |}.

End primitives.

End ImageDraw.


(** ** The script *)

(** UTF-8 bytes of the two symbols that open the closing messages. *)
Definition check_mark : string :=
  String (ascii_of_nat 226) (String (ascii_of_nat 156)
    (String (ascii_of_nat 133) EmptyString)).

Definition phone : string :=
  String (ascii_of_nat 240) (String (ascii_of_nat 159)
    (String (ascii_of_nat 147) (String (ascii_of_nat 177) EmptyString))).

Definition newline : string := String (ascii_of_nat 10) EmptyString.

Definition icon_dir : string :=
  "LocationTracker/Assets.xcassets/AppIcon.appiconset".

(** The required icon sizes, in the order of the script. *)
Definition icons : list (Z * string) :=
  [ (40, "Icon-App-20x20@2x.png");
    (60, "Icon-App-20x20@3x.png");
    (58, "Icon-App-29x29@2x.png");
    (87, "Icon-App-29x29@3x.png");
    (80, "Icon-App-40x40@2x.png");
    (120, "Icon-App-40x40@3x.png");
    (120, "Icon-App-60x60@2x.png");
    (180, "Icon-App-60x60@3x.png");
    (20, "Icon-App-20x20@1x.png");
    (40, "Icon-App-20x20@2x.png");
    (29, "Icon-App-29x29@1x.png");
    (58, "Icon-App-29x29@2x.png");
    (40, "Icon-App-40x40@1x.png");
    (80, "Icon-App-40x40@2x.png");
    (152, "Icon-App-76x76@2x.png");
    (167, "Icon-App-83.5x83.5@2x.png");
    (1024, "Icon-App-1024x1024@1x.png") ].

Section script.
Context {B : Backend}.

(** [create_icon], lines 12 to 36: the raster and the three primitives
    drawn on it.  Nothing here touches the world. *)
Definition draw_icon (size : Z) : result drawing :=
  (* Create a new image with a blue background *)
  img ← Image.new RGB (size, size) "#007AFF";
  let draw := ImageDraw.Draw img in
  (* Add a white circle in the center *)
  let margin := size / 8 in
  draw ← ImageDraw.ellipse
           (margin, margin, size - margin, size - margin) "white" draw;
  (* Add a location pin symbol (simple triangle) *)
  let pin_size := size / 4 in
  let pin_x := size / 2 in
  let pin_y := size / 2 + pin_size / 4 in
  let points :=
    [ (pin_x, pin_y - pin_size / 2);                (* Top point *)
      (pin_x - pin_size / 3, pin_y + pin_size / 4); (* Bottom left *)
      (pin_x + pin_size / 3, pin_y + pin_size / 4)  (* Bottom right *) ] in
  draw ← ImageDraw.polygon points "#007AFF" draw;
  (* Add a small circle at the bottom *)
  let circle_size := pin_size / 3 in
  ImageDraw.ellipse
    (pin_x - circle_size / 2, pin_y + pin_size / 4 - circle_size / 2,
     pin_x + circle_size / 2, pin_y + pin_size / 4 + circle_size / 2)
    "#007AFF" draw.

(** [create_icon(size, filename)]: draw, then save the image and report. *)
Definition create_icon (size : Z) (filename : string) : Py unit :=
  draw ← pure (draw_icon size);
  let img := canvas draw in
  (* Save the image *)
  Image.save img filename;;
  print ("Created " +:+ filename +:+ " (" +:+ pretty size +:+ "x"
         +:+ pretty size +:+ ")").

(** [main()]: create each icon, then the two closing messages. *)
Definition main : Py unit :=
  for_each icons (fun '(size, filename) =>
    let filepath := os_path.join icon_dir filename in
    create_icon size filepath);;
  print (newline +:+ check_mark +:+ " All app icons generated successfully!");;
  print (phone +:+
    " The critical 120x120 icon (Icon-App-60x60@2x.png) has been created!").

(** Running the file as a program: the exit status is 0 when [main]
    returns and 1 when an exception leaves it. *)
Definition run (w : World) : Z * World :=
  match main w with
  | (inr _, w') => (0, w')
  | (inl _, w') => (1, w')
  end.

End script.

(** ** A backend to run the model with

    Exact geometric coverage for the two primitives (the ellipse inscribed
    in the box; the even-odd rule for the polygon), and the raster written
    out uncompressed behind the PNG signature and the dimensions.  It
    stands in for the real rasteriser and encoder in the examples only. *)

Module Reference.

Definition in_ellipse (xy : BBox) (x y : Z) : bool :=
  let '(x0, y0, x1, y1) := xy in
  let w := x1 - x0 in
  let h := y1 - y0 in
  let dx := 2 * x - (x0 + x1) in
  let dy := 2 * y - (y0 + y1) in
  (x0 <=? x) && (x <=? x1) && (y0 <=? y) && (y <=? y1) &&
  (dx * dx * (h * h) + dy * dy * (w * w) <=? w * w * (h * h)).

(** Does the horizontal ray leaving [(x, y)] to the right cross the edge
    from [p] to [q]? *)
Definition crosses (p q : Point) (x y : Z) : bool :=
  let '(px, py) := p in
  let '(qx, qy) := q in
  negb (Bool.eqb (y <? py) (y <? qy)) &&
  (if 0 <? qy - py
   then (x - px) * (qy - py) <? (qx - px) * (y - py)
   else (qx - px) * (y - py) <? (x - px) * (qy - py)).

Fixpoint parity (first p : Point) (rest : list Point) (x y : Z) : bool :=
  match rest with
  | [] => crosses p first x y
  | q :: rest' => xorb (crosses p q x y) (parity first q rest' x y)
  end.

Definition in_polygon (xy : list Point) (x y : Z) : bool :=
  match xy with
  | [] => false
  | p :: rest => parity p p rest x y
  end.

Definition byte_of_Z (z : Z) : Byte.byte :=
  default Byte.x00 (Byte.of_N (Z.to_N (z mod 256))).

Definition be32 (n : Z) : list Byte.byte :=
  [ byte_of_Z (n / 16777216); byte_of_Z (n / 65536);
    byte_of_Z (n / 256); byte_of_Z n ].

Definition signature : list Byte.byte :=
  byte_of_Z <$> [137; 80; 78; 71; 13; 10; 26; 10].

Definition header (im : image) : list Byte.byte :=
  signature ++ be32 (im_width im) ++ be32 (im_height im)
  ++ [byte_of_Z 8; byte_of_Z (Z.of_nat (bands (im_mode im)))].

Definition raw (im : image) : list Byte.byte :=
  header im ++ (byte_of_Z <$> concat (concat (im_data im))).

#[global] Instance backend : Backend := {|
  ellipse_covers := in_ellipse;
  polygon_covers := in_polygon;
  png_encode := raw;
  png_preamble := header
|}.

End Reference.

(** ** What the proofs speak about *)

(** A raster is well formed when its data has the shape its header
    announces: [im_height] rows, [im_width] pixels a row, one value per
    band in each pixel. *)
Definition well_formed (im : image) : Prop :=
  0 <= im_width im /\ 0 <= im_height im /\
  length (im_data im) = Z.to_nat (im_height im) /\
  Forall (fun row =>
            length row = Z.to_nat (im_width im) /\
            Forall (fun p : pixel => length p = bands (im_mode im)) row)
         (im_data im).

(** Extent of a bounding box along each axis: the figure the description
    of the white circle calls its diameter. *)
Definition bbox_width (xy : BBox) : Z := let '(x0, _, x1, _) := xy in x1 - x0.
Definition bbox_height (xy : BBox) : Z := let '(_, y0, _, y1) := xy in y1 - y0.

(** Twice the centre of a bounding box, which keeps it an integer. *)
Definition bbox_centre2 (xy : BBox) : Point :=
  let '(x0, y0, x1, y1) := xy in (x0 + x1, y0 + y1).

Section facts.
Context {B : Backend}.

(** The bytes [create_icon] stores for a size. *)
Definition icon_png (size : Z) : list Byte.byte :=
  match draw_icon size with
  | inr d => png_encode (canvas d)
  | inl _ => []
  end.

Definition progress_line (size : Z) (filename : string) : string :=
  "Created " +:+ filename +:+ " (" +:+ pretty size +:+ "x"
  +:+ pretty size +:+ ")".

(** The world after [create_icon size filename] went through. *)
Definition written (size : Z) (filename : string) (w : World) : World :=
  {| fs := <[filename := File true (icon_png size)]> (fs w);
     stdout := stdout w ++ [progress_line size filename] |}.

(** The loop of [main] over entries that carry their full path, spelled
    out on the file store. *)
Fixpoint batch (entries : list (Z * string)) (w : World) : result unit * World :=
  match entries with
  | [] => (inr tt, w)
  | (size, fp) :: rest =>
    match open_wb (fs w) fp with
    | inl e => (inl e, w)
    | inr _ => batch rest (written size fp w)
    end
  end.

(** The size of the last entry written to [fp], if any. *)
Fixpoint last_write (fp : string) (entries : list (Z * string)) : option Z :=
  match entries with
  | [] => None
  | (size, p) :: rest =>
    match last_write fp rest with
    | Some s => Some s
    | None => if decide (p = fp) then Some size else None
    end
  end.

End facts.

(** The table with every file name resolved against [icon_dir]. *)
Definition targets : list (Z * string) :=
  (fun '(size, filename) => (size, os_path.join icon_dir filename)) <$> icons.

(** The two closing messages of [main]. *)
Definition closing_lines : list string :=
  [ newline +:+ check_mark +:+ " All app icons generated successfully!";
    phone +:+
    " The critical 120x120 icon (Icon-App-60x60@2x.png) has been created!" ].

(** Entries that name the same file ask for the same size. *)
Definition consistent (entries : list (Z * string)) : Prop :=
  Forall (fun e1 => Forall (fun e2 => e1.2 = e2.2 -> e1.1 = e2.1) entries)
         entries.

(** Would the store let [path] be opened for writing? *)
Definition openable (nodes : gmap string node) (path : string) : bool :=
  match open_wb nodes path with
  | inr _ => true
  | inl _ => false
  end.

(** ** Worlds to run the script in *)

(** The asset directory is there, writable and empty. *)
Definition ready : World :=
  {| fs := {[ icon_dir := Dir true ]}; stdout := [] |}.

(** Nothing is there, the asset directory neither. *)
Definition bare : World := {| fs := ∅; stdout := [] |}.

(** The asset directory is there, and so is a read-only file under the
    name of the fourth entry. *)
Definition blocked : World :=
  {| fs := {[ icon_dir := Dir true;
              os_path.join icon_dir "Icon-App-29x29@3x.png" := File false [] ]};
     stdout := [] |}.

(** ** Vocabulary for the pixels and the geometry *)

(** The two inks of an icon: [#007AFF] and [white] in mode RGB. *)
Definition accent : pixel := [0; 122; 255].
Definition white : pixel := [255; 255; 255].

Definition in_box (xy : BBox) (x y : Z) : Prop :=
  let '(x0, y0, x1, y1) := xy in x0 <= x <= x1 /\ y0 <= y <= y1.

(** [(x, y)] lies within the extent of the points on both axes. *)
Definition in_hull (xy : list Point) (x y : Z) : Prop :=
  (exists p : Point, p ∈ xy /\ p.1 <= x) /\
  (exists p : Point, p ∈ xy /\ x <= p.1) /\
  (exists p : Point, p ∈ xy /\ p.2 <= y) /\
  (exists p : Point, p ∈ xy /\ y <= p.2).

(** A backend is confined when a primitive paints no pixel outside the
    bounding box of its coordinates. *)
Definition confined (B : Backend) : Prop :=
  (forall (xy : BBox) (x y : Z),
     ellipse_covers xy x y = true -> in_box xy x y) /\
  (forall (xy : list Point) (x y : Z),
     polygon_covers xy x y = true -> in_hull xy x y).

(** The coordinates a primitive was given. *)
Definition shape_points (s : shape) : list Point :=
  match s with
  | Ellipse (x0, y0, x1, y1) => [ (x0, y0); (x1, y1) ]
  | Polygon xy => xy
  end.

Definition scale_point (k : Z) (p : Point) : Point := (k * p.1, k * p.2).

Definition scale_shape (k : Z) (s : shape) : shape :=
  match s with
  | Ellipse (x0, y0, x1, y1) => Ellipse (k * x0, k * y0, k * x1, k * y1)
  | Polygon xy => Polygon (scale_point k <$> xy)
  end.

(** * Properties *)

(** Closed decidable facts about the table and the sample worlds are
    settled by running their decision procedure. *)
Ltac by_computation := apply (bool_decide_unpack _); vm_compute; exact I.

(** ** The two monads *)

Lemma result_bind_inr {A C : Type} (x : A) (f : A -> result C) :
  (inr x : result A) ≫= f = f x.
Proof. reflexivity. Qed.

Lemma result_bind_inl {A C : Type} (e : exn) (f : A -> result C) :
  (inl e : result A) ≫= f = inl e.
Proof. reflexivity. Qed.

Lemma Py_bind_unfold {A C : Type} (m : Py A) (f : A -> Py C) (w : World) :
  (m ≫= f) w =
  match m w with
  | (inl e, w') => (inl e, w')
  | (inr x, w') => f x w'
  end.
Proof. reflexivity. Qed.

(** ** Rasters keep their shape *)

Lemma getcolor_bands (color : string) (m : mode) (ink : pixel) :
  getcolor color m = inr ink -> length ink = bands m.
Proof.
  unfold getcolor. destruct (ImageColor.getrgb color) as [e | [[r g] b]];
    [discriminate |].
  rewrite result_bind_inr. intros [= <-]. now destruct m.
Qed.

Lemma getcolor_accent : getcolor "#007AFF" RGB = inr [0; 122; 255].
Proof. reflexivity. Qed.

Lemma getcolor_white : getcolor "white" RGB = inr [255; 255; 255].
Proof. reflexivity. Qed.

Lemma new_inr (m : mode) (w h : Z) (color : string) (ink : pixel) :
  0 <= w -> 0 <= h -> getcolor color m = inr ink ->
  Image.new m (w, h) color =
  inr {| im_mode := m; im_width := w; im_height := h;
         im_data := replicate (Z.to_nat h) (replicate (Z.to_nat w) ink) |}.
Proof.
  intros Hw Hh Hink. unfold Image.new.
  destruct (Z.ltb_spec w 0); [lia |]. destruct (Z.ltb_spec h 0); [lia |].
  cbn [orb]. now rewrite Hink.
Qed.

Lemma new_negative (m : mode) (w h : Z) (color : string) :
  w < 0 \/ h < 0 ->
  Image.new m (w, h) color = inl (ValueError "Width and height must be >= 0").
Proof.
  intros Hneg. unfold Image.new.
  destruct (Z.ltb_spec w 0); [reflexivity |].
  destruct (Z.ltb_spec h 0); [reflexivity | lia].
Qed.

Lemma well_formed_new (m : mode) (w h : Z) (ink : pixel) :
  0 <= w -> 0 <= h -> length ink = bands m ->
  well_formed {| im_mode := m; im_width := w; im_height := h;
                 im_data := replicate (Z.to_nat h)
                                      (replicate (Z.to_nat w) ink) |}.
Proof.
  intros Hw Hh Hink. unfold well_formed; cbn.
  repeat split; try assumption.
  - apply length_replicate.
  - apply Forall_replicate. split.
    + apply length_replicate.
    + now apply Forall_replicate.
Qed.

Lemma Forall_imap_row (covers : nat -> bool) (ink : pixel) (n : nat)
    (row : list pixel) :
  length ink = n ->
  Forall (fun p : pixel => length p = n) row ->
  Forall (fun p : pixel => length p = n)
         (imap (fun x p => if covers x then ink else p) row).
Proof.
  intros Hink Hrow. revert covers.
  induction Hrow as [| p row Hp _ IH]; intros covers; cbn.
  - constructor.
  - constructor.
    + now destruct (covers 0%nat).
    + apply (IH (covers ∘ S)).
Qed.

Lemma Forall_imap_rows (cov : nat -> nat -> bool) (ink : pixel) (w n : nat)
    (rows : list (list pixel)) :
  length ink = n ->
  Forall (fun row => length row = w /\
                     Forall (fun p : pixel => length p = n) row) rows ->
  Forall (fun row => length row = w /\
                     Forall (fun p : pixel => length p = n) row)
         (imap (fun y row => imap (fun x p => if cov y x then ink else p) row)
               rows).
Proof.
  intros Hink Hrows. revert cov.
  induction Hrows as [| row rows [Hlen Hpx] _ IH]; intros cov; cbn.
  - constructor.
  - constructor.
    + split; [now rewrite length_imap |].
      now apply (Forall_imap_row (cov 0%nat)).
    + apply (IH (cov ∘ S)).
Qed.

Lemma well_formed_paint (covers : Z -> Z -> bool) (ink : pixel) (im : image) :
  length ink = bands (im_mode im) -> well_formed im ->
  well_formed (Image.paint covers ink im).
Proof.
  intros Hink (Hw & Hh & Hrows & Hall). unfold well_formed; cbn.
  repeat split; try assumption.
  - now rewrite length_imap.
  - now apply (Forall_imap_rows
                 (fun y x => covers (Z.of_nat x) (Z.of_nat y))).
Qed.

(** A well-formed raster has a pixel at exactly the coordinates within its
    width and height, each with one value per band. *)
Lemma getpixel_is_Some (im : image) (x y : Z) :
  well_formed im ->
  is_Some (Image.getpixel im x y) <->
  (0 <= x < im_width im /\ 0 <= y < im_height im).
Proof.
  intros (Hw & Hh & Hrows & Hall). unfold Image.getpixel.
  destruct (Z.ltb_spec x 0) as [Hx | Hx]; cbn [orb].
  { split; [intros [p Hp]; discriminate | lia]. }
  destruct (Z.ltb_spec y 0) as [Hy | Hy].
  { split; [intros [p Hp]; discriminate | lia]. }
  destruct (im_data im !! Z.to_nat y) as [row |] eqn:Hrow; cbn.
  - pose proof (lookup_lt_Some _ _ _ Hrow) as Hlt.
    rewrite Forall_lookup in Hall. destruct (Hall _ _ Hrow) as [Hlen _].
    rewrite lookup_lt_is_Some, Hlen. lia.
  - apply lookup_ge_None in Hrow.
    split; [intros [p Hp]; discriminate | lia].
Qed.

Lemma getpixel_bands (im : image) (x y : Z) (p : pixel) :
  well_formed im -> Image.getpixel im x y = Some p ->
  length p = bands (im_mode im).
Proof.
  intros (_ & _ & _ & Hall). unfold Image.getpixel.
  destruct ((x <? 0) || (y <? 0)); [discriminate |].
  destruct (im_data im !! Z.to_nat y) as [row |] eqn:Hrow; cbn;
    [| discriminate].
  intros Hp. rewrite Forall_lookup in Hall.
  destruct (Hall _ _ Hrow) as [_ Hpx]. rewrite Forall_lookup in Hpx.
  exact (Hpx _ _ Hp).
Qed.

Section drawing.
Context {B : Backend}.

Lemma ellipse_inr (x0 y0 x1 y1 : Z) (fill : string) (ink : pixel) (d : drawing) :
  getcolor fill (im_mode (canvas d)) = inr ink -> x0 <= x1 -> y0 <= y1 ->
  ImageDraw.ellipse (x0, y0, x1, y1) fill d =
  inr {| canvas := Image.paint (ellipse_covers (x0, y0, x1, y1)) ink (canvas d);
         journal := journal d ++ [(Ellipse (x0, y0, x1, y1), fill)] |}.
Proof.
  intros Hink Hx Hy. unfold ImageDraw.ellipse. rewrite Hink, result_bind_inr.
  destruct (Z.ltb_spec x1 x0); [lia |]. destruct (Z.ltb_spec y1 y0); [lia |].
  reflexivity.
Qed.

Lemma polygon_inr (xy : list Point) (fill : string) (ink : pixel) (d : drawing) :
  getcolor fill (im_mode (canvas d)) = inr ink ->
  ImageDraw.polygon xy fill d =
  inr {| canvas := Image.paint (polygon_covers xy) ink (canvas d);
         journal := journal d ++ [(Polygon xy, fill)] |}.
Proof. intros Hink. unfold ImageDraw.polygon. now rewrite Hink. Qed.

End drawing.

(** ** The drawing part of [create_icon] *)

Section icon.
Context {B : Backend}.

Lemma draw_icon_negative (size : Z) :
  size < 0 ->
  draw_icon size = inl (ValueError "Width and height must be >= 0").
Proof.
  intros Hneg. unfold draw_icon. rewrite new_negative by lia. reflexivity.
Qed.

(** From size 0 on, the three primitives go through, in the order of the
    script and with its coordinates, on a raster of the asked size. *)
Lemma draw_icon_inr (size : Z) :
  0 <= size ->
  exists d : drawing,
    draw_icon size = inr d /\
    journal d =
      (let margin := size / 8 in
       let pin_size := size / 4 in
       let pin_x := size / 2 in
       let pin_y := size / 2 + pin_size / 4 in
       let circle_size := pin_size / 3 in
       [ (Ellipse (margin, margin, size - margin, size - margin), "white");
         (Polygon [ (pin_x, pin_y - pin_size / 2);
                    (pin_x - pin_size / 3, pin_y + pin_size / 4);
                    (pin_x + pin_size / 3, pin_y + pin_size / 4) ],
          "#007AFF");
         (Ellipse (pin_x - circle_size / 2,
                   pin_y + pin_size / 4 - circle_size / 2,
                   pin_x + circle_size / 2,
                   pin_y + pin_size / 4 + circle_size / 2), "#007AFF") ]) /\
    im_mode (canvas d) = RGB /\
    im_width (canvas d) = size /\
    im_height (canvas d) = size /\
    well_formed (canvas d).
Proof.
  intros Hsize. unfold draw_icon.
  rewrite (new_inr RGB size size "#007AFF" _ Hsize Hsize getcolor_accent).
  rewrite result_bind_inr.
  rewrite (ellipse_inr _ _ _ _ "white" [255; 255; 255]);
    [| exact getcolor_white | Z.div_mod_to_equations; lia ..].
  rewrite result_bind_inr.
  rewrite (polygon_inr _ "#007AFF" [0; 122; 255]);
    [| exact getcolor_accent].
  rewrite result_bind_inr.
  rewrite (ellipse_inr _ _ _ _ "#007AFF" [0; 122; 255]);
    [| exact getcolor_accent | Z.div_mod_to_equations; lia ..].
  eexists. do 5 (split; [reflexivity |]). cbn [canvas ImageDraw.Draw].
  repeat apply well_formed_paint; try reflexivity.
  now apply well_formed_new.
Qed.

Lemma draw_icon_not_empty (size : Z) (d : drawing) :
  0 < size -> draw_icon size = inr d -> Image.is_empty (canvas d) = false.
Proof.
  intros Hsize Hd.
  destruct (draw_icon_inr size) as (d' & Hd' & _ & _ & Hw & Hh & _); [lia |].
  rewrite Hd in Hd'. injection Hd' as <-.
  unfold Image.is_empty. rewrite Hw, Hh.
  destruct (Z.leb_spec size 0); [lia | reflexivity].
Qed.

(** ** [create_icon] on the file store *)

Lemma open_wb_OSError (nodes : gmap string node) (path : string) (e : exn) :
  open_wb nodes path = inl e -> is_OSError e = true.
Proof.
  unfold open_wb.
  destruct (nodes !! path) as [[wr | [] data] |].
  - now intros [= <-].
  - discriminate.
  - now intros [= <-].
  - destruct (nodes !! os_path.dirname path) as [[[] | wr data] |];
      try discriminate; now intros [= <-].
Qed.

Lemma create_icon_ok (size : Z) (fp : string) (w : World) (created : bool) :
  0 < size -> open_wb (fs w) fp = inr created ->
  create_icon size fp w = (inr tt, written size fp w).
Proof.
  intros Hsize Hopen.
  destruct (draw_icon_inr size) as (d & Hd & _); [lia |].
  pose proof (draw_icon_not_empty size d Hsize Hd) as Hne.
  unfold create_icon, written, icon_png, progress_line.
  rewrite Py_bind_unfold. unfold pure. rewrite Hd.
  rewrite Py_bind_unfold. unfold Image.save. rewrite Hopen, Hne.
  reflexivity.
Qed.

Lemma create_icon_err (size : Z) (fp : string) (w : World) (e : exn) :
  0 < size -> open_wb (fs w) fp = inl e ->
  create_icon size fp w = (inl e, w).
Proof.
  intros Hsize Hopen.
  destruct (draw_icon_inr size) as (d & Hd & _); [lia |].
  unfold create_icon.
  rewrite Py_bind_unfold. unfold pure. rewrite Hd.
  rewrite Py_bind_unfold. unfold Image.save. rewrite Hopen.
  reflexivity.
Qed.

Lemma create_icon_negative (size : Z) (fp : string) (w : World) :
  size < 0 ->
  create_icon size fp w =
  (inl (ValueError "Width and height must be >= 0"), w).
Proof.
  intros Hneg. unfold create_icon.
  rewrite Py_bind_unfold. unfold pure.
  now rewrite draw_icon_negative.
Qed.

End icon.

(** ** The loop of [main] *)

Section loop.
Context {B : Backend}.

Lemma loop_batch (entries : list (Z * string)) (w : World) :
  Forall (fun e => 0 < e.1) entries ->
  for_each entries (fun '(size, filename) =>
    let filepath := os_path.join icon_dir filename in
    create_icon size filepath) w =
  batch ((fun '(size, filename) => (size, os_path.join icon_dir filename))
           <$> entries) w.
Proof.
  intros Hpos. revert w.
  induction Hpos as [| [size name] rest Hsize _ IH]; intros w.
  - reflexivity.
  - cbn [for_each fmap list_fmap batch]. rewrite Py_bind_unfold.
    cbn in Hsize.
    destruct (open_wb (fs w) (os_path.join icon_dir name)) as [e | c] eqn:Hopen.
    + now rewrite (create_icon_err _ _ _ e Hsize Hopen).
    + rewrite (create_icon_ok _ _ _ c Hsize Hopen). apply IH.
Qed.

Lemma icons_positive : Forall (fun e : Z * string => 0 < e.1) icons.
Proof. unfold icons. repeat constructor. Qed.

Lemma main_batch (w : World) :
  main w =
  match batch targets w with
  | (inl e, w') => (inl e, w')
  | (inr _, w') =>
    (inr tt, {| fs := fs w'; stdout := stdout w' ++ closing_lines |})
  end.
Proof.
  pose proof (loop_batch icons w icons_positive) as Hloop.
  cbv zeta in Hloop. unfold main. rewrite Py_bind_unfold, Hloop.
  fold targets. destruct (batch targets w) as [[e | []] w']; [reflexivity |].
  rewrite Py_bind_unfold. unfold print; cbn [fs stdout].
  now rewrite <- app_assoc.
Qed.

Lemma run_batch (w : World) :
  run w =
  match batch targets w with
  | (inl _, w') => (1, w')
  | (inr _, w') =>
    (0, {| fs := fs w'; stdout := stdout w' ++ closing_lines |})
  end.
Proof.
  unfold run. rewrite main_batch. now destruct (batch targets w) as [[e | []] w'].
Qed.

Lemma batch_app (pre post : list (Z * string)) (w : World) :
  batch (pre ++ post) w =
  match batch pre w with
  | (inl e, w1) => (inl e, w1)
  | (inr _, w1) => batch post w1
  end.
Proof.
  revert w. induction pre as [| [size fp] pre IH]; intros w; cbn.
  - reflexivity.
  - destruct (open_wb (fs w) fp); [reflexivity | apply IH].
Qed.

(** After a loop that went through, a path holds the icon of the last
    entry that named it, and what it held before when none did. *)
Lemma batch_lookup (entries : list (Z * string)) (w w' : World) (fp : string) :
  batch entries w = (inr tt, w') ->
  fs w' !! fp =
  match last_write fp entries with
  | Some size => Some (File true (icon_png size))
  | None => fs w !! fp
  end.
Proof.
  revert w. induction entries as [| [size p] rest IH]; intros w; cbn.
  - now intros [= <-].
  - destruct (open_wb (fs w) p); [discriminate |].
    intros Hrest. rewrite (IH _ Hrest).
    destruct (last_write fp rest); [reflexivity |].
    unfold written; cbn [fs]. destruct (decide (p = fp)) as [-> | Hne].
    + apply lookup_insert_eq.
    + now apply lookup_insert_ne.
Qed.

Lemma batch_stdout (entries : list (Z * string)) (w w' : World) (r : result unit) :
  batch entries w = (r, w') ->
  exists done : list (Z * string),
    done `prefix_of` entries /\
    stdout w' = stdout w ++ ((fun e => progress_line e.1 e.2) <$> done) /\
    (r = inr tt -> done = entries).
Proof.
  revert w. induction entries as [| [size p] rest IH]; intros w; cbn.
  - intros [= <- <-]. exists []. split; [done |]. now rewrite app_nil_r.
  - destruct (open_wb (fs w) p).
    + intros [= <- <-]. exists []. split; [apply prefix_nil |].
      split; [now rewrite app_nil_r | discriminate].
    + intros Hrest. destruct (IH _ Hrest) as (done & Hpre & Hout & Hall).
      exists ((size, p) :: done). split; [now apply prefix_cons |].
      split.
      * rewrite Hout. unfold written; cbn. now rewrite <- app_assoc.
      * intros Hr. now rewrite (Hall Hr).
Qed.

(** A loop that raises did so at one entry: those before it went through,
    the store refused that one, and nothing ran after it. *)
Lemma batch_fail (entries : list (Z * string)) (w w' : World) (e : exn) :
  batch entries w = (inl e, w') ->
  exists pre size fp post,
    entries = pre ++ (size, fp) :: post /\
    batch pre w = (inr tt, w') /\
    open_wb (fs w') fp = inl e.
Proof.
  revert w. induction entries as [| [size p] rest IH]; intros w; cbn.
  - discriminate.
  - destruct (open_wb (fs w) p) as [e' | c] eqn:Hopen.
    + intros [= <- <-]. now exists [], size, p, rest.
    + intros Hrest.
      destruct (IH _ Hrest) as (pre & s & fp & post & -> & Hpre & Hfail).
      exists ((size, p) :: pre), s, fp, post. cbn. now rewrite Hopen.
Qed.

Lemma last_write_elem (entries : list (Z * string)) (size : Z) (fp : string) :
  last_write fp entries = Some size -> (size, fp) ∈ entries.
Proof.
  induction entries as [| [s p] rest IH]; cbn; [discriminate |].
  destruct (last_write fp rest) as [s' |].
  - intros [= ->]. right. now apply IH.
  - destruct (decide (p = fp)) as [-> |]; [| discriminate].
    intros [= ->]. left.
Qed.

Lemma elem_last_write (entries : list (Z * string)) (size : Z) (fp : string) :
  (size, fp) ∈ entries -> is_Some (last_write fp entries).
Proof.
  induction entries as [| [s p] rest IH]; [inversion 1 |].
  intros [[= <- <-] | Hrest]%elem_of_cons; cbn.
  - destruct (last_write fp rest); [eauto |]. rewrite decide_True; eauto.
  - destruct (IH Hrest) as [s' ->]. eauto.
Qed.

Lemma consistent_last_write (entries : list (Z * string)) (size : Z) (fp : string) :
  consistent entries -> (size, fp) ∈ entries ->
  last_write fp entries = Some size.
Proof.
  unfold consistent. intros Hcons Hin.
  destruct (elem_last_write _ _ _ Hin) as [s Hs]. rewrite Hs. f_equal.
  apply last_write_elem in Hs. rewrite Forall_forall in Hcons.
  specialize (Hcons _ Hs). rewrite Forall_forall in Hcons.
  exact (Hcons _ Hin eq_refl).
Qed.

Lemma consistent_app_l (pre post : list (Z * string)) :
  consistent (pre ++ post) -> consistent pre.
Proof.
  unfold consistent. rewrite Forall_app. intros [Hpre _].
  eapply Forall_impl; [exact Hpre |]. cbn. intros e He.
  now apply Forall_app in He as [He _].
Qed.

(** On a store that already holds every icon of the entries, the loop goes
    through and leaves the store as it is. *)
Lemma batch_fixed (entries : list (Z * string)) (w : World) :
  (forall size fp, (size, fp) ∈ entries ->
                   fs w !! fp = Some (File true (icon_png size))) ->
  exists w' : World, batch entries w = (inr tt, w') /\ fs w' = fs w.
Proof.
  revert w. induction entries as [| [size p] rest IH]; intros w Hheld; cbn.
  - now exists w.
  - assert (Hp : fs w !! p = Some (File true (icon_png size)))
      by (apply Hheld; left).
    unfold open_wb at 1. rewrite Hp. cbn.
    destruct (IH (written size p w)) as (w' & Hw' & Hfs).
    + intros s fp Hin. unfold written; cbn [fs].
      rewrite (insert_id _ _ _ Hp). apply Hheld. now right.
    + exists w'. split; [assumption |]. rewrite Hfs.
      unfold written; cbn [fs]. now apply insert_id.
Qed.

(** Running the loop again on the store a first run left ends the same
    way and leaves that store as it is. *)
Lemma batch_twice (entries : list (Z * string)) (w w1 w1' : World)
    (r : result unit) :
  consistent entries -> batch entries w = (r, w1) -> fs w1' = fs w1 ->
  exists w2 : World, batch entries w1' = (r, w2) /\ fs w2 = fs w1.
Proof.
  intros Hcons Hrun Hsame. destruct r as [e | []].
  - destruct (batch_fail _ _ _ _ Hrun) as (pre & s & p & post & -> & Hpre & Hfail).
    destruct (batch_fixed pre w1') as (w2 & Hw2 & Hfs).
    + intros size fp Hin. rewrite Hsame, (batch_lookup _ _ _ fp Hpre).
      now rewrite (consistent_last_write pre size fp)
        by eauto using consistent_app_l.
    + exists w2. split; [| congruence].
      rewrite batch_app, Hw2. cbn. now rewrite Hfs, Hsame, Hfail.
  - destruct (batch_fixed entries w1') as (w2 & Hw2 & Hfs).
    + intros size fp Hin. rewrite Hsame, (batch_lookup _ _ _ fp Hrun).
      now rewrite (consistent_last_write entries size fp).
    + exists w2. split; [assumption | congruence].
Qed.

Lemma batch_dom (entries : list (Z * string)) (w w' : World) :
  batch entries w = (inr tt, w') ->
  dom (fs w') = dom (fs w) ∪ list_to_set (entries.*2).
Proof.
  revert w. induction entries as [| [size p] rest IH]; intros w; cbn.
  - intros [= <-]. now rewrite (right_id_L ∅ (∪)).
  - destruct (open_wb (fs w) p); [discriminate |].
    intros Hrest. rewrite (IH _ Hrest). unfold written; cbn [fs].
    now rewrite dom_insert_L, (comm_L (∪) {[p]}), <- (assoc_L (∪)).
Qed.

End loop.

(** ** When the loop goes through *)

Lemma for_each_app {A : Type} (pre post : list A) (body : A -> Py unit)
    (w : World) :
  for_each (pre ++ post) body w =
  match for_each pre body w with
  | (inl e, w1) => (inl e, w1)
  | (inr _, w1) => for_each post body w1
  end.
Proof.
  revert w. induction pre as [| x pre IH]; intros w; cbn [app for_each].
  - reflexivity.
  - rewrite !Py_bind_unfold. destruct (body x w) as [[e | []] w1];
      [reflexivity | apply IH].
Qed.

(** Writing a file does not change which paths can be opened. *)
Lemma openable_insert (nodes : gmap string node) (p q : string)
    (data : list Byte.byte) :
  openable nodes p = true ->
  openable (<[p := File true data]> nodes) q = openable nodes q.
Proof.
  unfold openable, open_wb. intros Hp.
  destruct (decide (p = q)) as [<- | Hne].
  - rewrite lookup_insert_eq.
    destruct (nodes !! p) as [[wr | [] dt] |]; try discriminate; [reflexivity |].
    destruct (nodes !! os_path.dirname p) as [[[] | wr dt] |];
      try discriminate; reflexivity.
  - rewrite (lookup_insert_ne _ _ _ _ Hne).
    destruct (nodes !! q) as [nd |]; [reflexivity |].
    destruct (decide (p = os_path.dirname q)) as [<- | Hdir].
    + rewrite lookup_insert_eq.
      destruct (nodes !! p) as [[wr | [] dt] |]; try discriminate; reflexivity.
    + now rewrite (lookup_insert_ne _ _ _ _ Hdir).
Qed.

Section success.
Context {B : Backend}.

Lemma batch_inr (entries : list (Z * string)) (w : World) :
  Forall (fun e : Z * string => openable (fs w) e.2 = true) entries ->
  exists w' : World, batch entries w = (inr tt, w').
Proof.
  intros Hall. revert w Hall.
  induction entries as [| [size p] rest IH]; intros w Hall; cbn [batch].
  - now exists w.
  - apply Forall_cons in Hall as [Hp Hrest]. cbn in Hp.
    pose proof Hp as Hopen. unfold openable in Hopen.
    destruct (open_wb (fs w) p) as [e | c]; [discriminate |].
    apply IH. eapply Forall_impl; [exact Hrest |]. cbn. intros [s q] Hq.
    unfold written; cbn [fs snd]. cbn in Hq.
    now rewrite (openable_insert _ _ _ _ Hp).
Qed.

End success.

(** ** The fixed table *)

Lemma targets_consistent : consistent targets.
Proof. unfold consistent. by_computation. Qed.

Lemma icons_paths :
  Forall (fun e : Z * string =>
            os_path.join icon_dir e.2 = icon_dir +:+ "/" +:+ e.2 /\
            os_path.dirname (os_path.join icon_dir e.2) = icon_dir)
         icons.
Proof. unfold icons. repeat constructor. Qed.

Lemma elem_of_targets (size : Z) (filename : string) :
  (size, filename) ∈ icons ->
  (size, os_path.join icon_dir filename) ∈ targets.
Proof.
  intros Hin. unfold targets.
  apply (list_elem_of_fmap_2
           (fun '(size, filename) => (size, os_path.join icon_dir filename))
           icons (size, filename) Hin).
Qed.

(** ** The claims *)

Section claims.
Context {B : Backend}.

(** C1. For every size [s > 0], [create_icon] builds a raster of exactly
    [s] by [s] pixels in mode RGB, three values a pixel; and it is that
    raster, as drawn, that is encoded into the file: nothing rescales or
    crops it on the way. *)
Theorem create_icon_raster_size (size : Z) :
  0 < size ->
  exists d : drawing,
    draw_icon size = inr d /\
    im_mode (canvas d) = RGB /\ bands (im_mode (canvas d)) = 3%nat /\
    im_width (canvas d) = size /\ im_height (canvas d) = size /\
    length (im_data (canvas d)) = Z.to_nat size /\
    Forall (fun row => length row = Z.to_nat size /\
                       Forall (fun p : pixel => length p = 3%nat) row)
           (im_data (canvas d)) /\
    (forall x y : Z,
       is_Some (Image.getpixel (canvas d) x y) <->
       (0 <= x < size /\ 0 <= y < size)) /\
    forall (fp : string) (w : World) (created : bool),
      open_wb (fs w) fp = inr created ->
      fs (create_icon size fp w).2 !! fp =
      Some (File true (png_encode (canvas d))).
Proof.
  intros Hsize.
  destruct (draw_icon_inr size) as (d & Hd & _ & Hmode & Hw & Hh & Hwf);
    [lia |].
  exists d. pose proof (fun x y => getpixel_is_Some (canvas d) x y Hwf) as Hpx.
  destruct Hwf as (_ & _ & Hrows & Hall).
  rewrite Hmode, Hw, Hh in *. repeat (split; [done |]).
  intros fp w created Hopen.
  rewrite (create_icon_ok size fp w created Hsize Hopen).
  unfold written, icon_png; cbn [snd fs]. rewrite Hd.
  apply lookup_insert_eq.
Qed.

(** C6. For every size [s > 0] the first primitive drawn is the white
    ellipse whose box runs from [s // 8] to [s - s // 8] on both axes: it is
    inset by [s // 8] from each of the four edges of the canvas, its extent
    is [s - 2 * (s // 8)] either way, and it is the only white primitive. *)
Theorem white_circle_inset (size : Z) :
  0 < size ->
  exists (d : drawing) (x0 y0 x1 y1 : Z) (rest : list (shape * string)),
    draw_icon size = inr d /\
    journal d = (Ellipse (x0, y0, x1, y1), "white") :: rest /\
    getcolor "white" (im_mode (canvas d)) = inr [255; 255; 255] /\
    x0 = size / 8 /\ y0 = size / 8 /\
    x1 = size - size / 8 /\ y1 = size - size / 8 /\
    im_width (canvas d) - x1 = size / 8 /\
    im_height (canvas d) - y1 = size / 8 /\
    bbox_width (x0, y0, x1, y1) = size - 2 * (size / 8) /\
    bbox_height (x0, y0, x1, y1) = size - 2 * (size / 8) /\
    Forall (fun c : shape * string => c.2 <> "white") rest.
Proof.
  intros Hsize.
  destruct (draw_icon_inr size) as (d & Hd & Hj & Hmode & Hw & Hh & _);
    [lia |].
  cbv zeta in Hj.
  exists d, (size / 8), (size / 8), (size - size / 8), (size - size / 8).
  eexists. split; [exact Hd |]. split; [exact Hj |].
  rewrite Hmode, Hw, Hh. unfold bbox_width, bbox_height.
  repeat (split; [reflexivity || lia |]).
  repeat constructor; discriminate.
Qed.

(** C8. At size 120 the raster is 120 by 120, the white circle's box spans
    15..105 on each axis, and the apex of the pin triangle, filled with the
    accent colour, is at (60, 52): in column 60, seven rows below row 45. *)
Theorem render_120 :
  exists (d : drawing) (apex : Point) (low : list Point)
         (base : shape * string),
    draw_icon 120 = inr d /\
    im_width (canvas d) = 120 /\ im_height (canvas d) = 120 /\
    length (im_data (canvas d)) = 120%nat /\
    Forall (fun row : list pixel => length row = 120%nat)
           (im_data (canvas d)) /\
    journal d =
      [ (Ellipse (15, 15, 105, 105), "white");
        (Polygon (apex :: low), "#007AFF"); base ] /\
    getcolor "#007AFF" (im_mode (canvas d)) = inr [0; 122; 255] /\
    apex = (60, 52) /\
    apex.1 = 60 /\ 45 <= apex.2 <= 45 + 7.
Proof.
  destruct (draw_icon_inr 120) as (d & Hd & Hj & Hmode & Hw & Hh & Hwf);
    [lia |].
  destruct Hwf as (_ & _ & Hrows & Hall). rewrite Hw, Hh in *.
  exists d. do 3 eexists. split; [exact Hd |].
  split; [exact Hw |]. split; [exact Hh |]. split; [exact Hrows |].
  split; [eapply Forall_impl; [exact Hall |]; now intros row [Hlen _] |].
  split; [rewrite Hj; vm_compute; reflexivity |].
  rewrite Hmode. cbn. repeat split; lia.
Qed.

(** C7, as the code has it.  For every size [s > 0], with
    [pin_size = s // 4], [pin_x = s // 2] and
    [pin_y = s // 2 + pin_size // 4], the second primitive is the triangle
    [(pin_x, pin_y - pin_size // 2)],
    [(pin_x - pin_size // 3, pin_y + pin_size // 4)],
    [(pin_x + pin_size // 3, pin_y + pin_size // 4)] and the third is the
    ellipse of radius [(pin_size // 3) // 2] about
    [(pin_x, pin_y + pin_size // 4)], both in the accent colour, which is
    the ink of the background.  The extent of that ellipse is twice the
    radius: [pin_size // 3] when that is even, one less when it is odd. *)
Theorem pin_glyph_geometry (size : Z) :
  0 < size ->
  let pin_size := size / 4 in
  let pin_x := size / 2 in
  let pin_y := size / 2 + pin_size / 4 in
  let radius := (pin_size / 3) / 2 in
  exists (d : drawing) (circle : shape * string) (base : BBox),
    draw_icon size = inr d /\
    journal d =
      [ circle;
        (Polygon [ (pin_x, pin_y - pin_size / 2);
                   (pin_x - pin_size / 3, pin_y + pin_size / 4);
                   (pin_x + pin_size / 3, pin_y + pin_size / 4) ],
         "#007AFF");
        (Ellipse base, "#007AFF") ] /\
    getcolor "#007AFF" (im_mode (canvas d)) = inr [0; 122; 255] /\
    base = (pin_x - radius, pin_y + pin_size / 4 - radius,
            pin_x + radius, pin_y + pin_size / 4 + radius) /\
    bbox_centre2 base = (2 * pin_x, 2 * (pin_y + pin_size / 4)) /\
    bbox_width base = 2 * radius /\
    bbox_height base = 2 * radius /\
    pin_size / 3 - 1 <= bbox_width base <= pin_size / 3 /\
    (bbox_width base = pin_size / 3 <-> (pin_size / 3) mod 2 = 0).
Proof.
  intros Hsize pin_size pin_x pin_y radius.
  destruct (draw_icon_inr size) as (d & Hd & Hj & Hmode & _); [lia |].
  cbv zeta in Hj. exists d. do 2 eexists.
  split; [exact Hd |]. split; [exact Hj |]. rewrite Hmode.
  split; [reflexivity |]. split; [reflexivity |].
  unfold bbox_centre2, bbox_width. fold pin_size pin_x pin_y radius.
  split; [f_equal; lia |]. split; [lia |]. split; [cbn; lia |].
  subst radius. generalize (pin_size / 3). intros c.
  split; [| split]; Z.div_mod_to_equations; lia.
Qed.

(** C3, as the code has it.  [create_icon] has no size check of its own.
    Below 0 the raster constructor refuses the size, before anything is
    drawn, written or printed.  At 0 nothing refuses it: the three
    primitives go through on an empty raster.  Above 0 the drawing always
    goes through, and the call can only fail when the file store refuses
    the file. *)
Theorem create_icon_size_check (size : Z) (fp : string) (w : World) :
  (size < 0 ->
   create_icon size fp w =
   (inl (ValueError "Width and height must be >= 0"), w)) /\
  (size = 0 ->
   exists d : drawing,
     draw_icon size = inr d /\ length (journal d) = 3%nat /\
     im_width (canvas d) = 0 /\ im_height (canvas d) = 0 /\
     im_data (canvas d) = []) /\
  (0 < size ->
   exists d : drawing,
     draw_icon size = inr d /\
     forall e : exn,
       (create_icon size fp w).1 = inl e ->
       open_wb (fs w) fp = inl e /\ is_OSError e = true).
Proof.
  split; [apply create_icon_negative |]. split.
  - intros ->. destruct (draw_icon_inr 0) as (d & Hd & Hj & _ & Hw & Hh & Hwf);
      [lia |].
    exists d. split; [exact Hd |]. split; [now rewrite Hj |].
    split; [exact Hw |]. split; [exact Hh |].
    destruct Hwf as (_ & _ & Hrows & _). rewrite Hh in Hrows.
    now destruct (im_data (canvas d)).
  - intros Hsize. destruct (draw_icon_inr size) as (d & Hd & _); [lia |].
    exists d. split; [exact Hd |]. intros e He.
    destruct (open_wb (fs w) fp) as [e' | c] eqn:Hopen.
    + rewrite (create_icon_err _ _ _ e' Hsize Hopen) in He.
      cbn in He. injection He as <-.
      split; [reflexivity |]. exact (open_wb_OSError _ _ _ Hopen).
    + now rewrite (create_icon_ok _ _ _ c Hsize Hopen) in He.
Qed.

(** C4, as the code has it.  For every size [s > 0] the drawing is a
    computation on the raster alone; [create_icon] then opens [filename].
    When the store refuses it the world is left as it was.  Otherwise the
    call stores the encoded raster under [filename], prints one line, and
    changes no other path. *)
Theorem create_icon_effects (size : Z) (filename : string) (w : World) :
  0 < size ->
  exists d : drawing,
    draw_icon size = inr d /\
    ((exists e : exn,
        open_wb (fs w) filename = inl e /\
        create_icon size filename w = (inl e, w)) \/
     (exists created : bool,
        open_wb (fs w) filename = inr created /\
        create_icon size filename w =
        (inr tt,
         {| fs := <[filename := File true (png_encode (canvas d))]> (fs w);
            stdout := stdout w ++
              [ "Created " +:+ filename +:+ " (" +:+ pretty size +:+ "x"
                +:+ pretty size +:+ ")" ] |}))) /\
    forall q : string,
      q <> filename -> fs (create_icon size filename w).2 !! q = fs w !! q.
Proof.
  intros Hsize. destruct (draw_icon_inr size) as (d & Hd & _); [lia |].
  exists d. split; [exact Hd |].
  destruct (open_wb (fs w) filename) as [e | c] eqn:Hopen.
  - rewrite (create_icon_err _ _ _ e Hsize Hopen). split; [| reflexivity].
    left. now exists e.
  - rewrite (create_icon_ok _ _ _ c Hsize Hopen).
    unfold written, icon_png, progress_line. rewrite Hd. split.
    + right. now exists c.
    + intros q Hq. cbn [snd fs]. now apply lookup_insert_ne.
Qed.

(** C2. After a run that exits with status 0, each of the 14 distinct
    file names of the table is there in the asset directory, and holds the
    PNG encoding of a raster whose width and height are the size the table
    pairs with that name. *)
Theorem main_writes_every_icon (w w' : World) :
  run w = (0, w') ->
  length (remove_dups (icons.*2)) = 14%nat /\
  forall (size : Z) (filename : string),
    (size, filename) ∈ icons ->
    exists d : drawing,
      draw_icon size = inr d /\
      im_width (canvas d) = size /\ im_height (canvas d) = size /\
      os_path.join icon_dir filename = icon_dir +:+ "/" +:+ filename /\
      os_path.dirname (os_path.join icon_dir filename) = icon_dir /\
      fs w' !! os_path.join icon_dir filename =
      Some (File true (png_encode (canvas d))).
Proof.
  unfold run. rewrite main_batch.
  destruct (batch targets w) as [[e | []] w1] eqn:Hbatch; [discriminate |].
  intros [= <-]. split; [vm_compute; reflexivity |].
  intros size filename Hin.
  pose proof icons_positive as Hpos. pose proof icons_paths as Hpaths.
  rewrite Forall_forall in Hpos, Hpaths.
  specialize (Hpos _ Hin). destruct (Hpaths _ Hin) as [Hjoin Hdir].
  cbn [fst snd] in Hpos, Hjoin, Hdir.
  destruct (draw_icon_inr size) as (d & Hd & _ & _ & Hw & Hh & _); [lia |].
  exists d. do 5 (split; [assumption |]). cbn [fs].
  rewrite (batch_lookup _ _ _ (os_path.join icon_dir filename) Hbatch).
  rewrite (consistent_last_write targets size)
    by auto using targets_consistent, elem_of_targets.
  unfold icon_png. now rewrite Hd.
Qed.

(** C5. When the write of an entry of the table fails after the entries
    before it went through, [main] stops there with that error, which is
    an [OSError]: the world is the one the earlier entries left, so the
    failed entry is not tried again and no later entry is written or
    announced, and the exit status is 1.  A run exits with status 0 only
    when all seventeen entries went through. *)
Theorem main_stops_at_first_failure (w w1 : World)
    (pre post : list (Z * string)) (size : Z) (filename : string) (e : exn) :
  icons = pre ++ (size, filename) :: post ->
  for_each pre (fun '(size, filename) =>
    let filepath := os_path.join icon_dir filename in
    create_icon size filepath) w = (inr tt, w1) ->
  (create_icon size (os_path.join icon_dir filename) w1).1 = inl e ->
  is_OSError e = true /\
  main w = (inl e, w1) /\
  run w = (1, w1) /\
  stdout w1 =
    stdout w ++ ((fun e => progress_line e.1 (os_path.join icon_dir e.2))
                   <$> pre) /\
  (forall q : string,
     q ∉ (os_path.join icon_dir <$> pre.*2) -> fs w1 !! q = fs w !! q) /\
  (forall w0 : World,
     (run w0).1 = 0 ->
     exists w0' : World,
       for_each icons (fun '(size, filename) =>
         let filepath := os_path.join icon_dir filename in
         create_icon size filepath) w0 = (inr tt, w0')).
Proof.
  intros Hicons Hpre Hfail.
  pose proof icons_positive as Hpos. rewrite Hicons in Hpos.
  apply Forall_app in Hpos as [Hpos_pre Hpos_rest].
  apply Forall_cons in Hpos_rest as [Hsize _]. cbn in Hsize.
  assert (Hopen : open_wb (fs w1) (os_path.join icon_dir filename) = inl e).
  { destruct (open_wb (fs w1) (os_path.join icon_dir filename))
      as [e' | c] eqn:Hopen.
    - rewrite (create_icon_err _ _ _ e' Hsize Hopen) in Hfail.
      now injection Hfail as <-.
    - now rewrite (create_icon_ok _ _ _ c Hsize Hopen) in Hfail. }
  assert (Hmain : main w = (inl e, w1)).
  { unfold main. rewrite Py_bind_unfold, Hicons, for_each_app.
    cbv zeta in Hpre. rewrite Hpre. cbn [for_each].
    rewrite Py_bind_unfold, (create_icon_err _ _ _ e Hsize Hopen).
    reflexivity. }
  rewrite (loop_batch pre w Hpos_pre) in Hpre.
  split; [exact (open_wb_OSError _ _ _ Hopen) |].
  split; [exact Hmain |]. split; [unfold run; now rewrite Hmain |].
  split; [| split].
  - destruct (batch_stdout _ _ _ _ Hpre) as (done & _ & Hout & Hall).
    rewrite Hout, (Hall eq_refl), <- list_fmap_compose.
    f_equal. apply list_fmap_ext. now intros i [s f].
  - intros q Hq. rewrite (batch_lookup _ _ _ q Hpre).
    destruct (last_write q _) as [s |] eqn:Hlast; [| reflexivity].
    apply last_write_elem, list_elem_of_fmap in Hlast as ([s' f] & [= -> ->] & Hin).
    exfalso. apply Hq. apply list_elem_of_fmap. exists f. split; [reflexivity |].
    apply list_elem_of_fmap. exists (s', f). split; [reflexivity | exact Hin].
  - intros w0. rewrite run_batch, (loop_batch icons w0 icons_positive).
    fold targets.
    destruct (batch targets w0) as [[e0 | []] w0']; [discriminate | eauto].
Qed.

(** C9. Running the script again on the world a first run left ends with
    the same exit status and leaves the file store as the first run left
    it: every file holds the same bytes after both runs. *)
Theorem run_twice_same_files (w : World) :
  (run (run w).2).1 = (run w).1 /\
  fs (run (run w).2).2 = fs (run w).2.
Proof.
  rewrite (run_batch w).
  destruct (batch targets w) as [r w1] eqn:Hfirst.
  destruct r as [e | []]; cbn [fst snd]; rewrite run_batch.
  - destruct (batch_twice targets w w1 w1 _ targets_consistent Hfirst eq_refl)
      as (w2 & -> & Hfs).
    split; [reflexivity | exact Hfs].
  - destruct (batch_twice targets w w1
                {| fs := fs w1; stdout := stdout w1 ++ closing_lines |}
                _ targets_consistent Hfirst eq_refl)
      as (w2 & -> & Hfs).
    split; [reflexivity | exact Hfs].
Qed.

(** C10. The table has 17 entries, and three of them come twice, size and
    file name alike: 14 distinct entries under 14 distinct names.  A run
    that goes through announces all 17 writes, in table order, touches the
    14 paths and no other; and when an entry comes for the second time its
    file already holds those very bytes, so the write leaves the store as
    it is. *)
Theorem icons_exact_duplicates :
  length icons = 17%nat /\
  length (filter (fun e => e = (40, "Icon-App-20x20@2x.png")) icons) = 2%nat /\
  length (filter (fun e => e = (58, "Icon-App-29x29@2x.png")) icons) = 2%nat /\
  length (filter (fun e => e = (80, "Icon-App-40x40@2x.png")) icons) = 2%nat /\
  length (remove_dups icons) = 14%nat /\
  length (remove_dups (icons.*2)) = 14%nat /\
  size (list_to_set (targets.*2) : gset string) = 14%nat /\
  (forall w w' : World,
     main w = (inr tt, w') ->
     stdout w' =
       stdout w ++ ((fun e => progress_line e.1 (os_path.join icon_dir e.2))
                      <$> icons) ++ closing_lines /\
     dom (fs w') = dom (fs w) ∪ list_to_set (targets.*2) /\
     forall q : string, q ∉ targets.*2 -> fs w' !! q = fs w !! q) /\
  (forall (w w1 : World) (pre post : list (Z * string)) (size : Z)
          (filename : string),
     icons = pre ++ (size, filename) :: post ->
     (size, filename) ∈ pre ->
     for_each pre (fun '(size, filename) =>
       let filepath := os_path.join icon_dir filename in
       create_icon size filepath) w = (inr tt, w1) ->
     exists w2 : World,
       create_icon size (os_path.join icon_dir filename) w1 = (inr tt, w2) /\
       fs w2 = fs w1).
Proof.
  do 7 (split; [vm_compute; reflexivity |]). split.
  - intros w w'. rewrite main_batch.
    destruct (batch targets w) as [[e | []] w1] eqn:Hbatch; [discriminate |].
    intros [= <-]. cbn [fs stdout]. split; [| split].
    + destruct (batch_stdout _ _ _ _ Hbatch) as (done & _ & Hout & Hall).
      rewrite Hout, (Hall eq_refl), <- app_assoc. do 2 f_equal.
    + exact (batch_dom _ _ _ Hbatch).
    + intros q Hq. rewrite (batch_lookup _ _ _ q Hbatch).
      destruct (last_write q targets) as [s |] eqn:Hlast; [| reflexivity].
      apply last_write_elem in Hlast. exfalso. apply Hq.
      apply list_elem_of_fmap. exists (s, q). split; [reflexivity | exact Hlast].
  - intros w w1 pre post size filename Hicons Hin Hpre.
    pose proof icons_positive as Hpos. rewrite Hicons in Hpos.
    apply Forall_app in Hpos as [Hpos_pre Hpos_rest].
    apply Forall_cons in Hpos_rest as [Hsize _]. cbn in Hsize.
    rewrite (loop_batch pre w Hpos_pre) in Hpre.
    pose proof targets_consistent as Hcons. unfold targets in Hcons.
    rewrite Hicons, fmap_app in Hcons. apply consistent_app_l in Hcons.
    assert (Hheld : fs w1 !! os_path.join icon_dir filename =
                    Some (File true (icon_png size))).
    { rewrite (batch_lookup _ _ _ _ Hpre).
      rewrite (consistent_last_write _ size); [reflexivity | exact Hcons |].
      apply list_elem_of_fmap. now exists (size, filename). }
    assert (Hopen : open_wb (fs w1) (os_path.join icon_dir filename) = inr false)
      by (unfold open_wb; now rewrite Hheld).
    rewrite (create_icon_ok _ _ _ _ Hsize Hopen). eexists.
    split; [reflexivity |]. unfold written; cbn [fs].
    now apply insert_id.
Qed.

End claims.

(** ** The claims on concrete inputs *)

(** C3 at size 0.  Nothing refuses the size: the drawing goes through on
    an empty raster, and where the asset directory is missing the call fails
    on the file, as it would for any size. *)
Lemma size_zero_not_rejected :
  (exists d : drawing,
     @draw_icon Reference.backend 0 = inr d /\
     canvas d = {| im_mode := RGB; im_width := 0; im_height := 0;
                   im_data := [] |}) /\
  @create_icon Reference.backend 0
    (os_path.join icon_dir "Icon-App-20x20@1x.png") bare =
  (inl (FileNotFoundError
          "LocationTracker/Assets.xcassets/AppIcon.appiconset/Icon-App-20x20@1x.png"),
   bare).
Proof.
  split; [eexists; split |]; vm_compute; reflexivity.
Qed.

(** C4 at size 20 in the ready world: the file was not there and is there
    after [create_icon], and a line was printed. *)
Lemma create_icon_writes_and_prints :
  fs ready !! os_path.join icon_dir "Icon-App-20x20@1x.png" = None /\
  stdout ready = [] /\
  exists w' : World,
    @create_icon Reference.backend 20
      (os_path.join icon_dir "Icon-App-20x20@1x.png") ready = (inr tt, w') /\
    is_Some (fs w' !! os_path.join icon_dir "Icon-App-20x20@1x.png") /\
    stdout w' =
      [ "Created LocationTracker/Assets.xcassets/AppIcon.appiconset/Icon-App-20x20@1x.png (20x20)" ] /\
    w' <> ready.
Proof.
  split; [vm_compute; reflexivity |]. split; [reflexivity |].
  assert (Hopen : open_wb (fs ready)
                    (os_path.join icon_dir "Icon-App-20x20@1x.png") = inr true)
    by (vm_compute; reflexivity).
  eexists. split; [apply (create_icon_ok 20 _ ready true); [lia | exact Hopen] |].
  split; [unfold written; cbn [fs]; rewrite lookup_insert_eq; eauto |].
  split; [vm_compute; reflexivity |].
  intros Heq. apply (f_equal stdout) in Heq. discriminate Heq.
Qed.

(** C7 at sizes 40 and 120.  At 40 the box of the pin base runs from 19
    to 21, an extent of 2, where [pin_size // 3] is 3; at 120 it runs over
    the 11 columns 55..65, where [pin_size // 3] is 10. *)
Lemma pin_base_extent_off :
  (exists (d : drawing) (circle pin : shape * string),
     @draw_icon Reference.backend 40 = inr d /\
     journal d = [ circle; pin; (Ellipse (19, 23, 21, 25), "#007AFF") ] /\
     bbox_width (19, 23, 21, 25) = 2 /\
     (40 / 4) / 3 = 3 /\
     bbox_width (19, 23, 21, 25) <> (40 / 4) / 3) /\
  (exists (d : drawing) (circle pin : shape * string),
     @draw_icon Reference.backend 120 = inr d /\
     journal d = [ circle; pin; (Ellipse (55, 69, 65, 79), "#007AFF") ] /\
     bbox_width (55, 69, 65, 79) + 1 = 11 /\
     (120 / 4) / 3 = 10).
Proof.
  split.
  - destruct (@draw_icon_inr Reference.backend 40) as (d & Hd & Hj & _);
      [lia |].
    exists d. do 2 eexists. split; [exact Hd |]. split; [exact Hj |].
    repeat split. discriminate.
  - destruct (@draw_icon_inr Reference.backend 120) as (d & Hd & Hj & _);
      [lia |].
    exists d. do 2 eexists. split; [exact Hd |]. split; [exact Hj |].
    repeat split.
Qed.

(** C1 at size 40. *)
Lemma create_icon_raster_size_witness :
  0 < 40 /\
  exists d : drawing,
    @draw_icon Reference.backend 40 = inr d /\
    im_width (canvas d) = 40 /\ im_height (canvas d) = 40 /\
    length (im_data (canvas d)) = 40%nat.
Proof.
  assert (Hsize : 0 < 40) by lia. split; [exact Hsize |].
  destruct (@create_icon_raster_size Reference.backend 40 Hsize)
    as (d & Hd & _ & _ & Hw & Hh & Hlen & _).
  exists d. split; [exact Hd |]. split; [exact Hw |].
  split; [exact Hh | exact Hlen].
Defined.

(** C6 at size 120. *)
Lemma white_circle_inset_witness :
  0 < 120 /\
  exists (d : drawing) (rest : list (shape * string)),
    @draw_icon Reference.backend 120 = inr d /\
    journal d = (Ellipse (15, 15, 105, 105), "white") :: rest.
Proof.
  assert (Hsize : 0 < 120) by lia. split; [exact Hsize |].
  destruct (@white_circle_inset Reference.backend 120 Hsize)
    as (d & x0 & y0 & x1 & y1 & rest & Hd & Hj & _ & -> & -> & -> & -> & _).
  exists d, rest. split; [exact Hd | exact Hj].
Defined.

(** C7 as amended, at size 1024. *)
Lemma pin_glyph_geometry_witness :
  0 < 1024 /\
  exists (d : drawing) (circle : shape * string),
    @draw_icon Reference.backend 1024 = inr d /\
    journal d =
      [ circle;
        (Polygon [ (512, 448); (427, 640); (597, 640) ], "#007AFF");
        (Ellipse (470, 598, 554, 682), "#007AFF") ].
Proof.
  assert (Hsize : 0 < 1024) by lia. split; [exact Hsize |].
  destruct (@pin_glyph_geometry Reference.backend 1024 Hsize)
    as (d & circle & base & Hd & Hj & _ & -> & _).
  exists d, circle. split; [exact Hd | exact Hj].
Defined.

(** C3 as amended, at sizes -1, 0 and 20. *)
Lemma create_icon_size_check_witness :
  -1 < 0 /\
  @create_icon Reference.backend (-1) "icon.png" bare =
  (inl (ValueError "Width and height must be >= 0"), bare) /\
  (exists d : drawing, @draw_icon Reference.backend 0 = inr d) /\
  0 < 20 /\
  (exists d : drawing, @draw_icon Reference.backend 20 = inr d).
Proof.
  assert (Hneg : -1 < 0) by lia. assert (Hpos : 0 < 20) by lia.
  split; [exact Hneg |].
  split; [exact (proj1 (@create_icon_size_check Reference.backend (-1)
                          "icon.png" bare) Hneg) |].
  split.
  - destruct (proj1 (proj2 (@create_icon_size_check Reference.backend 0
                              "icon.png" bare)) eq_refl) as (d & Hd & _).
    now exists d.
  - split; [exact Hpos |].
    destruct (proj2 (proj2 (@create_icon_size_check Reference.backend 20
                              "icon.png" bare)) Hpos) as (d & Hd & _).
    now exists d.
Defined.

(** C4 as amended, at size 20 in the ready world: the asset directory
    itself is left as it was. *)
Lemma create_icon_effects_witness :
  0 < 20 /\
  fs (@create_icon Reference.backend 20
        (os_path.join icon_dir "Icon-App-20x20@1x.png") ready).2 !! icon_dir =
  Some (Dir true).
Proof.
  assert (Hsize : 0 < 20) by lia. split; [exact Hsize |].
  destruct (@create_icon_effects Reference.backend 20
              (os_path.join icon_dir "Icon-App-20x20@1x.png") ready Hsize)
    as (d & _ & _ & Hframe).
  rewrite (Hframe icon_dir); [reflexivity | discriminate].
Defined.

(** C2 in the ready world: the run exits with status 0 and the 120 pixel
    icon is in place. *)
Lemma main_writes_every_icon_witness :
  exists w' : World,
    @run Reference.backend ready = (0, w') /\
    exists d : drawing,
      @draw_icon Reference.backend 120 = inr d /\
      im_width (canvas d) = 120 /\ im_height (canvas d) = 120 /\
      fs w' !! os_path.join icon_dir "Icon-App-60x60@2x.png" =
      Some (File true (png_encode (canvas d))).
Proof.
  assert (Hopen : Forall (fun e : Z * string => openable (fs ready) e.2 = true)
                         targets)
    by (by_computation).
  destruct (@batch_inr Reference.backend targets ready Hopen) as [w1 Hw1].
  assert (Hrun : @run Reference.backend ready =
                 (0, {| fs := fs w1; stdout := stdout w1 ++ closing_lines |}))
    by (rewrite run_batch, Hw1; reflexivity).
  eexists. split; [exact Hrun |].
  assert (Hin : (120, "Icon-App-60x60@2x.png") ∈ icons)
    by (by_computation).
  destruct (proj2 (main_writes_every_icon ready _ Hrun) 120
                  "Icon-App-60x60@2x.png" Hin)
    as (d & Hd & Hw & Hh & _ & _ & Hfile).
  exists d. repeat split; assumption.
Defined.

(** C5 in the blocked world: three entries go through, the fourth is
    refused, and the sixth was never written. *)
Lemma main_stops_at_first_failure_witness :
  exists w1 : World,
    @main Reference.backend blocked =
    (inl (PermissionError (os_path.join icon_dir "Icon-App-29x29@3x.png")), w1) /\
    @run Reference.backend blocked = (1, w1) /\
    length (stdout w1) = 3%nat /\
    fs w1 !! os_path.join icon_dir "Icon-App-40x40@3x.png" = None.
Proof.
  assert (Hicons : icons =
            take 3 icons ++ (87, "Icon-App-29x29@3x.png") :: drop 4 icons)
    by reflexivity.
  assert (Hpos : Forall (fun e : Z * string => 0 < e.1) (take 3 icons))
    by (cbn; repeat constructor).
  assert (Hopen : Forall (fun e : Z * string => openable (fs blocked) e.2 = true)
            ((fun '(size, filename) => (size, os_path.join icon_dir filename))
               <$> take 3 icons))
    by (by_computation).
  destruct (@batch_inr Reference.backend _ blocked Hopen) as [w1 Hw1].
  assert (Hheld : fs w1 !! os_path.join icon_dir "Icon-App-29x29@3x.png" =
                  Some (File false []))
    by (rewrite (batch_lookup _ _ _ _ Hw1); vm_compute; reflexivity).
  assert (Hrefused : open_wb (fs w1)
                       (os_path.join icon_dir "Icon-App-29x29@3x.png") =
                     inl (PermissionError
                            (os_path.join icon_dir "Icon-App-29x29@3x.png")))
    by (unfold open_wb; rewrite Hheld; reflexivity).
  assert (Hfail : (@create_icon Reference.backend 87
                     (os_path.join icon_dir "Icon-App-29x29@3x.png") w1).1 =
                  inl (PermissionError
                         (os_path.join icon_dir "Icon-App-29x29@3x.png")))
    by (rewrite (create_icon_err 87 _ w1 _ ltac:(lia) Hrefused); reflexivity).
  rewrite <- (loop_batch (take 3 icons) blocked Hpos) in Hw1.
  destruct (main_stops_at_first_failure blocked w1 _ _ _ _ _ Hicons Hw1 Hfail)
    as (_ & Hmain & Hrun & Hout & Hframe & _).
  exists w1. split; [exact Hmain |]. split; [exact Hrun |].
  split; [rewrite Hout; reflexivity |].
  rewrite Hframe; [vm_compute; reflexivity |].
  by_computation.
Defined.

(** C10 in the ready world: the tenth entry repeats the first. *)
Lemma icons_exact_duplicates_witness :
  length icons = 17%nat /\
  exists w1 w2 : World,
    for_each (take 9 icons) (fun '(size, filename) =>
      let filepath := os_path.join icon_dir filename in
      @create_icon Reference.backend size filepath) ready = (inr tt, w1) /\
    @create_icon Reference.backend 40
      (os_path.join icon_dir "Icon-App-20x20@2x.png") w1 = (inr tt, w2) /\
    fs w2 = fs w1.
Proof.
  destruct (@icons_exact_duplicates Reference.backend)
    as (Hlen & _ & _ & _ & _ & _ & _ & _ & Hagain).
  split; [exact Hlen |].
  assert (Hicons : icons =
            take 9 icons ++ (40, "Icon-App-20x20@2x.png") :: drop 10 icons)
    by reflexivity.
  assert (Hin : (40, "Icon-App-20x20@2x.png") ∈ take 9 icons)
    by (by_computation).
  assert (Hpos : Forall (fun e : Z * string => 0 < e.1) (take 9 icons))
    by (cbn; repeat constructor).
  assert (Hopen : Forall (fun e : Z * string => openable (fs ready) e.2 = true)
            ((fun '(size, filename) => (size, os_path.join icon_dir filename))
               <$> take 9 icons))
    by (by_computation).
  destruct (@batch_inr Reference.backend _ ready Hopen) as [w1 Hw1].
  rewrite <- (loop_batch (take 9 icons) ready Hpos) in Hw1.
  destruct (Hagain ready w1 _ _ _ _ Hicons Hin Hw1) as (w2 & Hw2 & Hfs).
  exists w1, w2. repeat split; assumption.
Defined.

(** * Further properties of the script *)

(** ** Pixels under [paint] *)

Lemma getpixel_paint (covers : Z -> Z -> bool) (ink : pixel) (im : image)
    (x y : Z) :
  Image.getpixel (Image.paint covers ink im) x y =
  (fun p => if covers x y then ink else p) <$> Image.getpixel im x y.
Proof.
  unfold Image.getpixel, Image.paint; cbn [im_data].
  destruct (Z.ltb_spec x 0) as [Hx | Hx]; [reflexivity |].
  destruct (Z.ltb_spec y 0) as [Hy | Hy]; [reflexivity |]. cbn [orb].
  rewrite list_lookup_imap.
  destruct (im_data im !! Z.to_nat y) as [row |]; [| reflexivity]. cbn.
  rewrite list_lookup_imap, !Z2Nat.id by assumption. reflexivity.
Qed.

Lemma getpixel_blank (m : mode) (w h : Z) (ink p : pixel) (x y : Z) :
  Image.getpixel
    {| im_mode := m; im_width := w; im_height := h;
       im_data := replicate (Z.to_nat h) (replicate (Z.to_nat w) ink) |} x y
  = Some p ->
  p = ink.
Proof.
  unfold Image.getpixel; cbn [im_data].
  destruct ((x <? 0) || (y <? 0)); [discriminate |].
  destruct (replicate (Z.to_nat h) _ !! Z.to_nat y) as [row |] eqn:Hrow;
    [| discriminate].
  apply lookup_replicate in Hrow as [-> _]. cbn.
  now intros [-> _]%lookup_replicate.
Qed.

Section canvas.
Context {B : Backend}.

(** The raster [create_icon] saves, spelled out: the blank canvas painted
    three times. *)
Lemma draw_icon_canvas (size : Z) (d : drawing) :
  draw_icon size = inr d ->
  0 <= size /\
  canvas d =
    (let margin := size / 8 in
     let pin_size := size / 4 in
     let pin_x := size / 2 in
     let pin_y := size / 2 + pin_size / 4 in
     let circle_size := pin_size / 3 in
     Image.paint
       (ellipse_covers (pin_x - circle_size / 2,
                        pin_y + pin_size / 4 - circle_size / 2,
                        pin_x + circle_size / 2,
                        pin_y + pin_size / 4 + circle_size / 2)) accent
       (Image.paint
          (polygon_covers [ (pin_x, pin_y - pin_size / 2);
                            (pin_x - pin_size / 3, pin_y + pin_size / 4);
                            (pin_x + pin_size / 3, pin_y + pin_size / 4) ])
          accent
          (Image.paint
             (ellipse_covers (margin, margin, size - margin, size - margin))
             white
             {| im_mode := RGB; im_width := size; im_height := size;
                im_data := replicate (Z.to_nat size)
                                     (replicate (Z.to_nat size) accent) |}))).
Proof.
  intros Hd. destruct (Z.lt_ge_cases size 0) as [Hneg | Hsize].
  { now rewrite (draw_icon_negative size Hneg) in Hd. }
  split; [exact Hsize |]. revert Hd. unfold draw_icon.
  rewrite (new_inr RGB size size "#007AFF" _ Hsize Hsize getcolor_accent).
  rewrite result_bind_inr.
  rewrite (ellipse_inr _ _ _ _ "white" [255; 255; 255]);
    [| exact getcolor_white | Z.div_mod_to_equations; lia ..].
  rewrite result_bind_inr.
  rewrite (polygon_inr _ "#007AFF" [0; 122; 255]);
    [| exact getcolor_accent].
  rewrite result_bind_inr.
  rewrite (ellipse_inr _ _ _ _ "#007AFF" [0; 122; 255]);
    [| exact getcolor_accent | Z.div_mod_to_equations; lia ..].
  now intros [= <-].
Qed.

(** X1. Whatever the rasteriser paints, each pixel of the raster that
    [create_icon] saves is either the accent ink or white: the drawing
    introduces no third colour. *)
Theorem icon_has_two_inks (size : Z) (d : drawing) (x y : Z) (p : pixel) :
  draw_icon size = inr d ->
  Image.getpixel (canvas d) x y = Some p ->
  p = accent \/ p = white.
Proof.
  intros Hd. destruct (draw_icon_canvas size d Hd) as [_ ->]. cbv zeta.
  rewrite !getpixel_paint.
  destruct (Image.getpixel _ x y) as [q |] eqn:Hq; [| discriminate].
  apply getpixel_blank in Hq as ->. cbn.
  intros [= <-]. repeat case_match; auto.
Qed.

(** X3. From size 0 on the primitives nest: the white circle's box lies
    within the canvas, and every coordinate given to the triangle and to
    the pin base lies within the white circle's box. *)
Theorem pin_within_white_box (size : Z) (d : drawing) :
  draw_icon size = inr d ->
  0 <= size / 8 /\ size / 8 <= size - size / 8 /\ size - size / 8 <= size /\
  Forall (fun c : shape * string =>
            Forall (fun q : Point =>
                      in_box (size / 8, size / 8,
                              size - size / 8, size - size / 8) q.1 q.2)
                   (shape_points c.1))
         (journal d).
Proof.
  intros Hd. destruct (draw_icon_canvas size d Hd) as [Hsize _].
  destruct (draw_icon_inr size Hsize) as (d' & Hd' & Hj & _).
  rewrite Hd in Hd'. injection Hd' as <-. rewrite Hj. cbv zeta.
  do 3 (split; [Z.div_mod_to_equations; lia |]).
  repeat constructor; cbn [fst snd]; Z.div_mod_to_equations; lia.
Qed.

(** X4. At the multiples of 48 every division of the geometry is exact, so
    the primitives of size [48 * k] are those of size 48 with each
    coordinate multiplied by [k]. *)
Theorem geometry_scales_from_48 (k : Z) (d1 dk : drawing) :
  0 <= k ->
  draw_icon 48 = inr d1 -> draw_icon (48 * k) = inr dk ->
  journal dk = (fun c : shape * string => (scale_shape k c.1, c.2))
                 <$> journal d1.
Proof.
  intros Hk H1 Hdk.
  destruct (draw_icon_inr 48) as (d' & Hd' & Hj1 & _); [lia |].
  rewrite H1 in Hd'. injection Hd' as <-.
  destruct (draw_icon_inr (48 * k)) as (d' & Hd' & Hjk & _); [lia |].
  rewrite Hdk in Hd'. injection Hd' as <-.
  rewrite Hj1, Hjk. cbv zeta. cbn [fmap list_fmap fst snd scale_shape scale_point].
  replace (48 * k / 8) with (6 * k) by (Z.div_mod_to_equations; lia).
  replace (48 * k / 4) with (12 * k) by (Z.div_mod_to_equations; lia).
  replace (48 * k / 2) with (24 * k) by (Z.div_mod_to_equations; lia).
  replace (12 * k / 4) with (3 * k) by (Z.div_mod_to_equations; lia).
  replace (12 * k / 2) with (6 * k) by (Z.div_mod_to_equations; lia).
  replace (12 * k / 3) with (4 * k) by (Z.div_mod_to_equations; lia).
  replace (4 * k / 2) with (2 * k) by (Z.div_mod_to_equations; lia).
  change (48 / 8) with 6. change (48 / 4) with 12. change (48 / 2) with 24.
  change (12 / 4) with 3. change (12 / 2) with 6. change (12 / 3) with 4.
  change (4 / 2) with 2.
  unfold scale_point; cbn [fst snd]. repeat (f_equal; try lia).
Qed.

End canvas.

(** ** The reference backend is confined *)

Lemma in_ellipse_in_box (xy : BBox) (x y : Z) :
  Reference.in_ellipse xy x y = true -> in_box xy x y.
Proof.
  destruct xy as [[[x0 y0] x1] y1]. unfold Reference.in_ellipse, in_box.
  rewrite !andb_true_iff, !Z.leb_le. tauto.
Qed.

Lemma crosses_straddle (p q : Point) (x y : Z) :
  Reference.crosses p q x y = true ->
  (p.2 <= y < q.2 \/ q.2 <= y < p.2) /\ (x < p.1 \/ x < q.1).
Proof.
  destruct p as [px py], q as [qx qy]. unfold Reference.crosses; cbn [fst snd].
  rewrite andb_true_iff.
  destruct (Z.ltb_spec y py), (Z.ltb_spec y qy); cbn; intros [Hs Hx];
    try discriminate; destruct (Z.ltb_spec 0 (qy - py)); try lia;
    apply Z.ltb_lt in Hx; (split; [lia | nia]).
Qed.

Lemma crosses_left (p q : Point) (x y : Z) :
  x < p.1 -> x < q.1 ->
  Reference.crosses p q x y = xorb (y <? p.2) (y <? q.2).
Proof.
  destruct p as [px py], q as [qx qy]. unfold Reference.crosses; cbn [fst snd].
  intros Hp Hq.
  destruct (Z.ltb_spec y py), (Z.ltb_spec y qy); cbn; try reflexivity;
    destruct (Z.ltb_spec 0 (qy - py)); try lia; apply Z.ltb_lt; nia.
Qed.

Lemma parity_left (first p : Point) (rest : list Point) (x y : Z) :
  x < first.1 -> x < p.1 -> Forall (fun v : Point => x < v.1) rest ->
  Reference.parity first p rest x y = xorb (y <? p.2) (y <? first.2).
Proof.
  intros Hfirst Hp Hrest. revert p Hp.
  induction Hrest as [| q rest Hq _ IH]; intros p Hp; cbn.
  - now apply crosses_left.
  - rewrite (crosses_left p q x y Hp Hq), (IH q Hq).
    now destruct (y <? p.2), (y <? q.2), (y <? first.2).
Qed.

Lemma parity_edge (first p : Point) (rest : list Point) (x y : Z) :
  Reference.parity first p rest x y = true ->
  exists a b : Point,
    a ∈ first :: p :: rest /\ b ∈ first :: p :: rest /\
    Reference.crosses a b x y = true.
Proof.
  revert p. induction rest as [| q rest IH]; intros p; cbn.
  - intros Hc. exists p, first. repeat split; [right; left | left | exact Hc].
  - destruct (Reference.crosses p q x y) eqn:Hc; cbn.
    + intros _. exists p, q.
      repeat split; [right; left | do 2 right; left | exact Hc].
    + intros (a & b & Ha & Hb & Hab)%IH. exists a, b.
      assert (Hweak : forall v : Point,
                 v ∈ first :: q :: rest -> v ∈ first :: p :: q :: rest).
      { intros v [-> | Hv]%elem_of_cons; [left | do 2 right; exact Hv]. }
      auto.
Qed.

Lemma in_polygon_in_hull (xy : list Point) (x y : Z) :
  Reference.in_polygon xy x y = true -> in_hull xy x y.
Proof.
  destruct xy as [| p rest]; [discriminate |]. cbn. intros Hpar.
  assert (Hsame : forall v : Point, v ∈ p :: p :: rest -> v ∈ p :: rest).
  { intros v [-> | Hv]%elem_of_cons; [left | exact Hv]. }
  destruct (parity_edge p p rest x y Hpar) as (a & b & Ha & Hb & Hab).
  apply Hsame in Ha, Hb.
  destruct (crosses_straddle a b x y Hab) as [Hy Hx].
  unfold in_hull. split; [| split; [| split]].
  - destruct (decide (Forall (fun v : Point => x < v.1) (p :: rest)))
      as [Hall | Hsome].
    + apply Forall_cons in Hall as [Hp Hrest].
      rewrite (parity_left p p rest x y Hp Hp Hrest) in Hpar.
      now destruct (y <? p.2).
    + apply not_Forall_Exists, Exists_exists in Hsome as (v & Hv & Hle);
        [| apply _].
      exists v. split; [exact Hv | unfold compose in Hle; lia].
  - destruct Hx; [exists a | exists b]; split; assumption || lia.
  - destruct Hy; [exists a | exists b]; split; assumption || lia.
  - destruct Hy; [exists b | exists a]; split; assumption || lia.
Qed.

Lemma reference_confined : confined Reference.backend.
Proof.
  split; [exact in_ellipse_in_box | exact in_polygon_in_hull].
Qed.

(** ** Where the primitives can paint *)

Lemma geometry_nesting (size : Z) :
  0 <= size ->
  let m := size / 8 in
  let ps := size / 4 in
  let px := size / 2 in
  let py := size / 2 + ps / 4 in
  let r := (ps / 3) / 2 in
  0 <= m /\ 0 <= ps / 3 /\ 0 <= ps / 2 /\ 0 <= ps / 4 /\ 0 <= r /\
  r <= ps / 3 /\ r <= ps / 2 /\
  m <= px - ps / 3 /\ px + ps / 3 <= size - m /\
  m <= py - ps / 2 /\ py + ps / 4 + r <= size - m.
Proof. intros Hsize. cbv zeta. Z.div_mod_to_equations. lia. Qed.

Lemma getpixel_blank_inside (m : mode) (w h : Z) (ink : pixel) (x y : Z) :
  0 <= x < w -> 0 <= y < h ->
  Image.getpixel
    {| im_mode := m; im_width := w; im_height := h;
       im_data := replicate (Z.to_nat h) (replicate (Z.to_nat w) ink) |} x y
  = Some ink.
Proof.
  intros Hx Hy. unfold Image.getpixel; cbn [im_data].
  destruct (Z.ltb_spec x 0); [lia |]. destruct (Z.ltb_spec y 0); [lia |].
  cbn [orb]. rewrite (proj2 (lookup_replicate _ _ _ _)) by (split; [reflexivity | lia]).
  cbn. apply lookup_replicate. split; [reflexivity | lia].
Qed.

Section confinement.
Context {B : Backend}.

(** X2. With a rasteriser that paints no pixel outside the bounding box of
    a primitive's coordinates, a pixel of the canvas outside the white
    circle's box keeps the accent ink of the background, and a pixel outside
    the pin's box (centre column plus and minus [pin_size // 3], from the
    apex row down to the bottom of the pin base) is what the background and
    the white circle alone made it. *)
Theorem primitives_stay_in_their_boxes (size : Z) (d : drawing) (x y : Z) :
  confined B ->
  draw_icon size = inr d ->
  0 <= x < size -> 0 <= y < size ->
  let margin := size / 8 in
  let pin_size := size / 4 in
  let pin_x := size / 2 in
  let pin_y := size / 2 + pin_size / 4 in
  let circle_size := pin_size / 3 in
  let circle := (margin, margin, size - margin, size - margin) in
  (~ in_box circle x y ->
   Image.getpixel (canvas d) x y = Some accent) /\
  (~ in_box (pin_x - pin_size / 3, pin_y - pin_size / 2,
             pin_x + pin_size / 3,
             pin_y + pin_size / 4 + circle_size / 2) x y ->
   Image.getpixel (canvas d) x y =
   Some (if ellipse_covers circle x y then white else accent)).
Proof.
  intros [Hell Hpoly] Hd Hx Hy. cbv zeta.
  destruct (draw_icon_canvas size d Hd) as [Hsize ->]. cbv zeta.
  rewrite !getpixel_paint, (getpixel_blank_inside _ _ _ _ _ _ Hx Hy).
  cbn [fmap option_fmap option_map].
  pose proof (geometry_nesting size Hsize) as Hnest. cbv zeta in Hnest.
  split.
  - intros Hout.
    destruct (ellipse_covers (size / 8, _, _, _) x y) eqn:Hc;
      [| now repeat case_match].
    apply Hell in Hc. contradiction.
  - intros Hout.
    destruct (ellipse_covers (size / 2 - _, _, _, _) x y) eqn:Hbase.
    { apply Hell in Hbase. exfalso. apply Hout.
      unfold in_box in *. lia. }
    destruct (polygon_covers _ x y) eqn:Htri; [| reflexivity].
    apply Hpoly in Htri as ((p1 & Hp1 & Hx1) & (p2 & Hp2 & Hx2)
                            & (p3 & Hp3 & Hy3) & (p4 & Hp4 & Hy4)).
    exfalso. apply Hout. unfold in_box.
    repeat match goal with
           | H : _ ∈ _ :: _ |- _ => apply elem_of_cons in H as [-> | H]
           | H : _ ∈ [] |- _ => inversion H
           end; cbn [fst snd] in *; lia.
Qed.

End confinement.

(** ** What a run depends on, and what it leaves alone *)

Lemma openable_iff (nodes : gmap string node) (path : string) :
  openable nodes path = true <->
  (exists data, nodes !! path = Some (File true data)) \/
  (nodes !! path = None /\
   nodes !! os_path.dirname path = Some (Dir true)).
Proof.
  unfold openable, open_wb.
  destruct (nodes !! path) as [[wr | [] data] |].
  - split; [discriminate | intros [[? [=]] | [[=] _]]].
  - split; [eauto | reflexivity].
  - split; [discriminate | intros [[? [=]] | [[=] _]]].
  - destruct (nodes !! os_path.dirname path) as [[[] | wr data] |];
      (split; [try discriminate; auto | try reflexivity;
               intros [[? [=]] | [_ [=]]]]).
Qed.

Section runs.
Context {B : Backend}.

(** The writes of the loop change nothing about which paths can be
    opened. *)
Lemma batch_openable (entries : list (Z * string)) (w w' : World)
    (r : result unit) (q : string) :
  batch entries w = (r, w') -> openable (fs w') q = openable (fs w) q.
Proof.
  revert w. induction entries as [| [size p] rest IH]; intros w; cbn.
  - now intros [= _ <-].
  - destruct (open_wb (fs w) p) as [e | c] eqn:Hopen.
    + now intros [= _ <-].
    + intros Hrest. rewrite (IH _ Hrest). unfold written; cbn [fs].
      apply openable_insert. unfold openable. now rewrite Hopen.
Qed.

(** Each path is as it was, or is a file the loop wrote where the store
    allowed it. *)
Lemma batch_frame (entries : list (Z * string)) (w w' : World)
    (r : result unit) (q : string) :
  batch entries w = (r, w') ->
  fs w' !! q = fs w !! q \/
  (openable (fs w) q = true /\ q ∈ entries.*2 /\
   exists data, fs w' !! q = Some (File true data)).
Proof.
  revert w. induction entries as [| [size p] rest IH]; intros w; cbn.
  - intros [= _ <-]. now left.
  - destruct (open_wb (fs w) p) as [e | c] eqn:Hopen.
    + intros [= _ <-]. now left.
    + intros Hrest.
      assert (Hp : openable (fs w) p = true)
        by (unfold openable; now rewrite Hopen).
      destruct (IH _ Hrest) as [Hsame | (Hq & Hin & data & Hdata)].
      * rewrite Hsame. unfold written; cbn [fs].
        destruct (decide (p = q)) as [<- | Hne].
        -- right. rewrite lookup_insert_eq.
           split; [exact Hp |]. split; [left | eauto].
        -- left. now apply lookup_insert_ne.
      * right. unfold written in Hq; cbn [fs] in Hq.
        rewrite (openable_insert _ _ _ _ Hp) in Hq.
        split; [exact Hq |]. split; [now right | eauto].
Qed.

(** The loop goes through exactly when every path could be opened at the
    start; when it raises, the entry it stopped at could not. *)
Lemma batch_outcome (entries : list (Z * string)) (w w' : World)
    (r : result unit) :
  batch entries w = (r, w') ->
  match r with
  | inr _ => Forall (fun e : Z * string => openable (fs w) e.2 = true) entries
  | inl e =>
    exists size fp,
      (size, fp) ∈ entries /\ openable (fs w) fp = false /\
      open_wb (fs w') fp = inl e
  end.
Proof.
  revert w. induction entries as [| [size p] rest IH]; intros w; cbn.
  - intros [= <- _]. constructor.
  - destruct (open_wb (fs w) p) as [e | c] eqn:Hopen.
    + intros [= <- <-]. exists size, p.
      split; [left |]. split; [| exact Hopen].
      unfold openable. now rewrite Hopen.
    + intros Hrest.
      assert (Hp : openable (fs w) p = true)
        by (unfold openable; now rewrite Hopen).
      specialize (IH _ Hrest). destruct r as [e | u].
      * destruct IH as (s & fp & Hin & Hno & Hfail).
        exists s, fp. split; [now right |]. split; [| exact Hfail].
        unfold written in Hno; cbn [fs] in Hno.
        now rewrite (openable_insert _ _ _ _ Hp) in Hno.
      * constructor; [exact Hp |].
        eapply Forall_impl; [exact IH |]. cbn. intros [s q] Hq.
        unfold written in Hq; cbn [fs snd] in Hq. cbn [snd].
        now rewrite (openable_insert _ _ _ _ Hp) in Hq.
Qed.

Lemma main_fs (w : World) :
  fs (main w).2 = fs (batch targets w).2.
Proof.
  rewrite main_batch. now destruct (batch targets w) as [[e | []] w'].
Qed.

Lemma elem_of_targets_inv (size : Z) (fp : string) :
  (size, fp) ∈ targets ->
  exists filename,
    (size, filename) ∈ icons /\ fp = os_path.join icon_dir filename /\
    os_path.dirname fp = icon_dir.
Proof.
  unfold targets. intros ([s f] & [= -> ->] & Hin)%list_elem_of_fmap.
  exists f. split; [exact Hin |]. split; [reflexivity |].
  pose proof icons_paths as Hpaths. rewrite Forall_forall in Hpaths.
  exact (proj2 (Hpaths _ Hin)).
Qed.

(** X5. Whether a run exits with status 0 is decided by the world it starts
    in: it does exactly when, for every entry of the table, the file in the
    asset directory is a writable regular file already, or is absent while
    the asset directory is there and writable. *)
Theorem run_succeeds_iff (w : World) :
  (run w).1 = 0 <->
  forall (size : Z) (filename : string),
    (size, filename) ∈ icons ->
    (exists data,
       fs w !! os_path.join icon_dir filename = Some (File true data)) \/
    (fs w !! os_path.join icon_dir filename = None /\
     fs w !! icon_dir = Some (Dir true)).
Proof.
  rewrite run_batch. split.
  - destruct (batch targets w) as [[e | []] w'] eqn:Hbatch; [discriminate |].
    intros _ size filename Hin.
    pose proof (batch_outcome _ _ _ _ Hbatch) as Hall. cbn in Hall.
    rewrite Forall_forall in Hall.
    specialize (Hall _ (elem_of_targets size filename Hin)). cbn [snd] in Hall.
    apply openable_iff in Hall.
    destruct (elem_of_targets_inv _ _ (elem_of_targets size filename Hin))
      as (f & _ & _ & Hdir).
    now rewrite Hdir in Hall.
  - intros Hall.
    destruct (batch_inr targets w) as [w' ->]; [| reflexivity].
    apply Forall_forall. intros [size fp] Hin. cbn [snd].
    destruct (elem_of_targets_inv _ _ Hin) as (f & Hf & -> & Hdir).
    apply openable_iff. rewrite Hdir. exact (Hall size f Hf).
Qed.

(** X6. A run never creates, removes or alters a directory, never touches
    a read-only file, never removes a path, and changes no path but those
    of the table: whatever its outcome. *)
Theorem main_leaves_the_rest (w : World) (q : string) :
  (forall writable : bool,
     fs (main w).2 !! q = Some (Dir writable) <->
     fs w !! q = Some (Dir writable)) /\
  (forall data : list Byte.byte,
     fs w !! q = Some (File false data) ->
     fs (main w).2 !! q = Some (File false data)) /\
  (is_Some (fs w !! q) -> is_Some (fs (main w).2 !! q)) /\
  (q ∉ (os_path.join icon_dir <$> icons.*2) ->
   fs (main w).2 !! q = fs w !! q).
Proof.
  rewrite main_fs. destruct (batch targets w) as [r w'] eqn:Hbatch.
  cbn [snd].
  destruct (batch_frame _ _ _ _ q Hbatch)
    as [-> | (Hq & Hin & data & Hdata)].
  { repeat split; auto. }
  rewrite Hdata. apply openable_iff in Hq.
  split; [| split; [| split]].
  - intros wr. split; [discriminate |].
    destruct Hq as [[dt Hq] | [Hq _]]; rewrite Hq; discriminate.
  - intros dt Hro.
    destruct Hq as [[dt' Hq] | [Hq _]]; rewrite Hq in Hro; discriminate.
  - eauto.
  - intros Hout. exfalso. apply Hout.
    apply list_elem_of_fmap in Hin as ([s p] & -> & Hin).
    destruct (elem_of_targets_inv _ _ Hin) as (f & Hf & -> & _).
    apply list_elem_of_fmap. exists f. split; [reflexivity |].
    apply list_elem_of_fmap. exists (s, f). split; [reflexivity | exact Hf].
Qed.

(** X7. Where the first file of the table is absent and the asset directory
    is not a writable directory, [main] raises an [OSError] at once and
    leaves the world as it found it, files and output alike; when the
    directory is missing the error is [FileNotFoundError] for that first
    file. *)
Theorem main_without_directory (w : World) :
  fs w !! os_path.join icon_dir "Icon-App-20x20@2x.png" = None ->
  fs w !! icon_dir <> Some (Dir true) ->
  exists e : exn,
    main w = (inl e, w) /\ run w = (1, w) /\ is_OSError e = true /\
    (fs w !! icon_dir = None ->
     e = FileNotFoundError (os_path.join icon_dir "Icon-App-20x20@2x.png")).
Proof.
  intros Hfile Hdir.
  assert (Hopen : exists e,
            open_wb (fs w) (os_path.join icon_dir "Icon-App-20x20@2x.png")
            = inl e /\
            (fs w !! icon_dir = None ->
             e = FileNotFoundError
                   (os_path.join icon_dir "Icon-App-20x20@2x.png"))).
  { unfold open_wb. rewrite Hfile.
    change (os_path.dirname (os_path.join icon_dir "Icon-App-20x20@2x.png"))
      with icon_dir.
    destruct (fs w !! icon_dir) as [[[] | wr data] |];
      [congruence | eexists; split; [reflexivity | discriminate] .. |
       eexists; split; reflexivity]. }
  destruct Hopen as (e & Hopen & Hmissing). exists e.
  assert (Hbatch : batch targets w = (inl e, w)).
  { unfold targets, icons. cbn [fmap list_fmap batch]. now rewrite Hopen. }
  split; [rewrite main_batch; now rewrite Hbatch |].
  split; [rewrite run_batch; now rewrite Hbatch |].
  split; [exact (open_wb_OSError _ _ _ Hopen) | exact Hmissing].
Qed.

(** X8. A second [create_icon] with the same size and file name, on the
    world the first one left, goes through as well and leaves every file
    as the first one left it. *)
Theorem create_icon_again (size : Z) (filename : string) (w w1 : World) :
  0 < size ->
  create_icon size filename w = (inr tt, w1) ->
  exists w2 : World,
    create_icon size filename w1 = (inr tt, w2) /\ fs w2 = fs w1 /\
    stdout w2 = stdout w1 ++ [progress_line size filename].
Proof.
  intros Hsize Hfirst.
  destruct (open_wb (fs w) filename) as [e | c] eqn:Hopen.
  { now rewrite (create_icon_err _ _ _ e Hsize Hopen) in Hfirst. }
  rewrite (create_icon_ok _ _ _ c Hsize Hopen) in Hfirst.
  injection Hfirst as <-.
  assert (Hheld : fs (written size filename w) !! filename =
                  Some (File true (icon_png size)))
    by apply lookup_insert_eq.
  assert (Hagain : open_wb (fs (written size filename w)) filename = inr false)
    by (unfold open_wb; now rewrite Hheld).
  rewrite (create_icon_ok _ _ _ _ Hsize Hagain). eexists.
  split; [reflexivity |]. split; [| reflexivity].
  now apply insert_id.
Qed.

(** X9. [main] raises nothing but an [OSError], and only for a file of the
    table that the world it started in would not let it open: its own
    writes never stand in its way. *)
Theorem main_raises_only_OSError (w w' : World) (e : exn) :
  main w = (inl e, w') ->
  is_OSError e = true /\
  exists (size : Z) (filename : string),
    (size, filename) ∈ icons /\
    openable (fs w) (os_path.join icon_dir filename) = false /\
    open_wb (fs w') (os_path.join icon_dir filename) = inl e.
Proof.
  rewrite main_batch.
  destruct (batch targets w) as [[e' | []] w1] eqn:Hbatch; [| discriminate].
  intros [= -> ->].
  destruct (batch_outcome _ _ _ _ Hbatch) as (size & fp & Hin & Hno & Hfail).
  split; [exact (open_wb_OSError _ _ _ Hfail) |].
  destruct (elem_of_targets_inv _ _ Hin) as (f & Hf & -> & _).
  exists size, f. split; [exact Hf |]. split; [exact Hno | exact Hfail].
Qed.

End runs.

(** ** The further properties on concrete inputs *)

(** X1 at size 16, pixel (8, 8). *)
Lemma icon_has_two_inks_witness :
  exists (d : drawing) (p : pixel),
    @draw_icon Reference.backend 16 = inr d /\
    Image.getpixel (canvas d) 8 8 = Some p /\
    (p = accent \/ p = white).
Proof.
  destruct (@draw_icon_inr Reference.backend 16) as (d & Hd & _ & _ & Hw & Hh & Hwf);
    [lia |].
  destruct (proj2 (getpixel_is_Some (canvas d) 8 8 Hwf)) as [p Hp];
    [rewrite Hw, Hh; lia |].
  exists d, p. split; [exact Hd |]. split; [exact Hp |].
  exact (icon_has_two_inks 16 d 8 8 p Hd Hp).
Defined.

(** X2 with the reference backend at size 16: the corner pixel is outside
    both boxes. *)
Lemma primitives_stay_in_their_boxes_witness :
  confined Reference.backend /\
  exists d : drawing,
    @draw_icon Reference.backend 16 = inr d /\
    Image.getpixel (canvas d) 0 0 = Some accent.
Proof.
  split; [exact reference_confined |].
  destruct (@draw_icon_inr Reference.backend 16) as (d & Hd & _); [lia |].
  exists d. split; [exact Hd |].
  assert (Hx : 0 <= 0 < 16) by lia.
  destruct (@primitives_stay_in_their_boxes Reference.backend 16 d 0 0
              reference_confined Hd Hx Hx) as [Hout _].
  apply Hout. unfold in_box. change (16 / 8) with 2. lia.
Defined.

(** X3 at size 120. *)
Lemma pin_within_white_box_witness :
  exists d : drawing,
    @draw_icon Reference.backend 120 = inr d /\
    Forall (fun c : shape * string =>
              Forall (fun q : Point => in_box (15, 15, 105, 105) q.1 q.2)
                     (shape_points c.1))
           (journal d).
Proof.
  destruct (@draw_icon_inr Reference.backend 120) as (d & Hd & _); [lia |].
  exists d. split; [exact Hd |].
  exact (proj2 (proj2 (proj2 (pin_within_white_box 120 d Hd)))).
Defined.

(** X4 with [k = 2]: size 96 against size 48. *)
Lemma geometry_scales_from_48_witness :
  0 <= 2 /\
  exists d1 d2 : drawing,
    @draw_icon Reference.backend 48 = inr d1 /\
    @draw_icon Reference.backend 96 = inr d2 /\
    journal d2 = (fun c : shape * string => (scale_shape 2 c.1, c.2))
                   <$> journal d1.
Proof.
  assert (Hk : 0 <= 2) by lia. split; [exact Hk |].
  destruct (@draw_icon_inr Reference.backend 48) as (d1 & Hd1 & _); [lia |].
  destruct (@draw_icon_inr Reference.backend 96) as (d2 & Hd2 & _); [lia |].
  exists d1, d2. split; [exact Hd1 |]. split; [exact Hd2 |].
  exact (geometry_scales_from_48 2 d1 d2 Hk Hd1 Hd2).
Defined.

(** X7 in the bare world. *)
Lemma main_without_directory_witness :
  @main Reference.backend bare =
  (inl (FileNotFoundError (os_path.join icon_dir "Icon-App-20x20@2x.png")),
   bare).
Proof.
  assert (Hfile : fs bare !! os_path.join icon_dir "Icon-App-20x20@2x.png"
                  = None) by reflexivity.
  assert (Hdir : fs bare !! icon_dir <> Some (Dir true)) by discriminate.
  destruct (@main_without_directory Reference.backend bare Hfile Hdir)
    as (e & Hmain & _ & _ & Hmissing).
  rewrite Hmain, (Hmissing eq_refl). reflexivity.
Defined.

(** X8 at size 20 in the ready world. *)
Lemma create_icon_again_witness :
  0 < 20 /\
  exists w1 w2 : World,
    @create_icon Reference.backend 20
      (os_path.join icon_dir "Icon-App-20x20@1x.png") ready = (inr tt, w1) /\
    @create_icon Reference.backend 20
      (os_path.join icon_dir "Icon-App-20x20@1x.png") w1 = (inr tt, w2) /\
    fs w2 = fs w1.
Proof.
  assert (Hsize : 0 < 20) by lia. split; [exact Hsize |].
  assert (Hopen : open_wb (fs ready)
                    (os_path.join icon_dir "Icon-App-20x20@1x.png") = inr true)
    by (vm_compute; reflexivity).
  pose proof (@create_icon_ok Reference.backend 20 _ ready true Hsize Hopen)
    as Hfirst.
  destruct (create_icon_again 20 _ ready _ Hsize Hfirst) as (w2 & Hw2 & Hfs & _).
  eexists. exists w2. split; [exact Hfirst |]. split; [exact Hw2 | exact Hfs].
Defined.

(** X9 in the blocked world: the read-only file is what stops the run. *)
Lemma main_raises_only_OSError_witness :
  exists (w' : World) (e : exn),
    @main Reference.backend blocked = (inl e, w') /\ is_OSError e = true.
Proof.
  destruct (@main Reference.backend blocked) as [[e | []] w'] eqn:Hmain.
  - exists w', e. split; [reflexivity |].
    exact (proj1 (main_raises_only_OSError blocked w' e Hmain)).
  - exfalso.
    assert (Hrun : (@run Reference.backend blocked).1 = 0)
      by (unfold run; now rewrite Hmain).
    rewrite run_batch in Hrun.
    destruct (@batch Reference.backend targets blocked) as [[e | []] w1] eqn:Hbatch;
      [discriminate |].
    assert (Hall : Forall (fun e : Z * string =>
                             openable (fs blocked) e.2 = true) targets)
      by exact (batch_outcome _ _ _ _ Hbatch).
    rewrite Forall_forall in Hall.
    assert (Hin : (87, os_path.join icon_dir "Icon-App-29x29@3x.png")
                  ∈ targets) by (by_computation).
    specialize (Hall _ Hin).
    change (openable (fs blocked)
              (os_path.join icon_dir "Icon-App-29x29@3x.png") = true) in Hall.
    assert (Hno : openable (fs blocked)
                    (os_path.join icon_dir "Icon-App-29x29@3x.png") = false)
      by (vm_compute; reflexivity).
    rewrite Hno in Hall. discriminate Hall.
Defined.

(** X5 in the ready world: no file of the table is there and the asset
    directory is writable, so the run exits with status 0. *)
Lemma run_succeeds_iff_witness :
  (@run Reference.backend ready).1 = 0.
Proof.
  apply run_succeeds_iff. intros size filename Hin. right.
  unfold icons in Hin.
  repeat (apply elem_of_cons in Hin as [[= -> ->] | Hin];
          [split; vm_compute; reflexivity |]).
  inversion Hin.
Defined.

(** X6 in the blocked world: after the failed run the asset directory and
    the read-only file are as they were. *)
Lemma main_leaves_the_rest_witness :
  fs (@main Reference.backend blocked).2 !! icon_dir = Some (Dir true) /\
  fs (@main Reference.backend blocked).2
    !! os_path.join icon_dir "Icon-App-29x29@3x.png" = Some (File false []).
Proof.
  split.
  - apply (proj1 (@main_leaves_the_rest Reference.backend blocked icon_dir)).
    vm_compute. reflexivity.
  - apply (proj1 (proj2 (@main_leaves_the_rest Reference.backend blocked
                           (os_path.join icon_dir "Icon-App-29x29@3x.png")))).
    vm_compute. reflexivity.
Defined.
